(** * genie-local: a shallow embedding of [genie_local.py]

    The program turns a natural-language task into one shell command with a
    local model, optionally runs it after a confirmation, and offers a
    refinement round when the command fails.  This file embeds

    - Python strings as lists of Unicode code points,
    - the fragment of [re] that the program's patterns use, as a
      backtracking matcher ([match_here], [re_search], [re_sub]),
    - [normalize_one_line], [is_dangerous], the state and history store,
    - [main] as a function of the process environment (state file, history
      file, standard streams, the backend and the shell),

    and proves the properties of the specification about them.

    What is taken as given:

    - the Unicode tables behind [\w] and [str.lower()] outside ASCII and
      [textwrap.dedent] are parameters; inside ASCII both are written out;
    - the backend and the shell are functions from their arguments to
      their result, and a command run by the shell does not touch the
      state file or the history log;
    - the state file is seen through [json]: it is missing, unreadable, or
      an object whose values are strings or integers;
    - of the file operations only the append to the history log can fail. *)

From Stdlib Require Import NArith ZArith List Bool Lia String Ascii DecimalString.
From stdpp Require Import gmap strings.
Import ListNotations.

Local Open Scope N_scope.

(** ** Python strings *)

(** A [str] is a sequence of code points. *)
Definition pystr := list N.

(** A literal of this file, read as a Python string (ASCII only). *)
Definition py (s : string) : pystr :=
  List.map N_of_ascii (list_ascii_of_string s).

Definition NL : N := 10.
Definition SPACE : N := 32.
Definition BACKTICK : N := 96.
Definition DQUOTE : N := 34.

(** [Py_UNICODE_ISSPACE]: the test behind [str.strip()] and behind [\s] in a
    [str] pattern. *)
Definition is_space (c : N) : bool :=
  ((9 <=? c) && (c <=? 13)) || ((28 <=? c) && (c <=? 32))
  || (c =? 133) || (c =? 160) || (c =? 5760)
  || ((8192 <=? c) && (c <=? 8202))
  || (c =? 8232) || (c =? 8233) || (c =? 8239) || (c =? 8287) || (c =? 12288).

Definition ascii_alnum (c : N) : bool :=
  ((48 <=? c) && (c <=? 57)) || ((65 <=? c) && (c <=? 90))
  || ((97 <=? c) && (c <=? 122)).

Definition ascii_lower (c : N) : N :=
  if (65 <=? c) && (c <=? 90) then c + 32 else c.

Definition is_ascii (c : N) : bool := c <? 128.

Definition str_eqb (a b : pystr) : bool :=
  if decide (a = b) then true else false.

(** [s.lstrip()], [s.rstrip()], [s.strip()] *)
Fixpoint lstrip (s : pystr) : pystr :=
  match s with
  | c :: s' => if is_space c then lstrip s' else s
  | [] => []
  end.

Definition rstrip (s : pystr) : pystr := rev (lstrip (rev s)).

Definition strip (s : pystr) : pystr := rstrip (lstrip s).

(** [s.startswith(p)] and [s.endswith(p)] *)
Fixpoint startswith (p s : pystr) : bool :=
  match p, s with
  | [], _ => true
  | x :: p', y :: s' => (x =? y) && startswith p' s'
  | _ :: _, [] => false
  end.

Definition endswith (p s : pystr) : bool := startswith (rev p) (rev s).

(** [s[1:-1]] *)
Definition slice_1_m1 (s : pystr) : pystr := removelast (tl s).

(** [c in s] for a one-character [c] *)
Definition contains (c : N) (s : pystr) : bool := existsb (N.eqb c) s.

(** [sep.join(parts)] *)
Fixpoint join (sep : pystr) (parts : list pystr) : pystr :=
  match parts with
  | [] => []
  | [p] => p
  | p :: rest => p ++ sep ++ join sep rest
  end.

(** ** The fragment of [re] used by the program

    Every pattern of the source is a sequence of single characters,
    character classes, anchors and greedy repetitions of one character or
    class; there are no groups and no alternation. *)
Inductive atom : Type :=
| Cls (p : N -> bool)                          (* a character or class *)
| Bol                                          (* ^ *)
| Eol                                          (* $ *)
| Wordb                                        (* \b *)
| Rep (p : N -> bool) (lo : nat) (hi : option nat).  (* p{lo,hi}, greedy *)

Definition pattern := list atom.

Definition Chr (c : N) : atom := Cls (N.eqb c).
Definition lit (s : string) : pattern := List.map Chr (py s).
Definition star (p : N -> bool) : atom := Rep p 0 None.
Definition plus (p : N -> bool) : atom := Rep p 1 None.
Definition opt (p : N -> bool) : atom := Rep p 0 (Some 1%nat).

(** [$] without [re.MULTILINE]: at the end, or before a final newline. *)
Definition at_end (s : pystr) : bool :=
  match s with
  | [] => true
  | [c] => c =? NL
  | _ => false
  end.

Definition more (hi : option nat) : bool :=
  match hi with Some O => false | _ => true end.

Definition dec (hi : option nat) : option nat := option_map Nat.pred hi.

(** Greedy repetition: take as many characters as allowed, then give them
    back one at a time until the rest of the pattern ([k]) matches.  The
    result is the number of characters the whole match consumes. *)
Fixpoint rep (p : N -> bool) (k : option N -> pystr -> option nat)
    (lo : nat) (hi : option nat) (prev : option N) (s : pystr)
    {struct s} : option nat :=
  let stop := match lo with O => k prev s | S _ => None end in
  match s with
  | c :: s' =>
      if p c && more hi then
        match rep p k (Nat.pred lo) (dec hi) (Some c) s' with
        | Some n => Some (S n)
        | None => stop
        end
      else stop
  | [] => stop
  end.

Section PythonRuntime.

(** [Py_UNICODE_ISALNUM] outside ASCII: a table of the Unicode database,
    taken as a parameter. *)
Variable uni_alnum : N -> bool.

(** [\w] in a [str] pattern *)
Definition is_word (c : N) : bool :=
  if is_ascii c then ascii_alnum c || (c =? 95) else uni_alnum c.

Definition word_opt (c : option N) : bool :=
  match c with Some x => is_word x | None => false end.

(** [\b]: [prev] is the character before the position ([None] at the start
    of the string), [s] the text from the position on. *)
Definition boundary (prev : option N) (s : pystr) : bool :=
  xorb (word_opt prev) (word_opt (head s)).

(** A match attempt at one position: [Some n] when the pattern matches [n]
    characters there, the first match in backtracking order. *)
Fixpoint match_here (pat : pattern) (prev : option N) (s : pystr)
    {struct pat} : option nat :=
  match pat with
  | [] => Some O
  | Cls p :: pat' =>
      match s with
      | c :: s' =>
          if p c then option_map S (match_here pat' (Some c) s') else None
      | [] => None
      end
  | Bol :: pat' =>
      match prev with None => match_here pat' prev s | Some _ => None end
  | Eol :: pat' => if at_end s then match_here pat' prev s else None
  | Wordb :: pat' => if boundary prev s then match_here pat' prev s else None
  | Rep p lo hi :: pat' => rep p (match_here pat') lo hi prev s
  end.

(** [re.search(pat, s)] as a truth value: scan the positions left to right. *)
Fixpoint search (pat : pattern) (prev : option N) (s : pystr) : bool :=
  match match_here pat prev s with
  | Some _ => true
  | None =>
      match s with
      | [] => false
      | c :: s' => search pat (Some c) s'
      end
  end.

Definition re_search (pat : pattern) (s : pystr) : bool := search pat None s.

(** [re.sub(pat, repl, s)] for a replacement without group references.
    The scan visits the characters in order; [skip] counts the characters
    still inside the match found last.  An empty match is replaced and the
    character after it copied, as the engine's must-advance rule does. *)
Fixpoint sub_scan (pat : pattern) (repl : pystr) (skip : nat)
    (prev : option N) (s : pystr) : pystr :=
  match s with
  | [] =>
      match skip, match_here pat prev [] with
      | O, Some _ => repl
      | _, _ => []
      end
  | c :: s' =>
      match skip with
      | S n => sub_scan pat repl n (Some c) s'
      | O =>
          match match_here pat prev s with
          | Some O => repl ++ c :: sub_scan pat repl O (Some c) s'
          | Some (S n) => repl ++ sub_scan pat repl n (Some c) s'
          | None => c :: sub_scan pat repl O (Some c) s'
          end
      end
  end.

Definition re_sub (pat : pattern) (repl : pystr) (s : pystr) : pystr :=
  sub_scan pat repl O None s.

(** ** The normalizer *)

Definition word_or_dash (c : N) : bool := is_word c || (c =? 45).

(** r"^```[\w-]*\n?" *)
Definition FENCE_OPEN : pattern :=
  [Bol; Chr BACKTICK; Chr BACKTICK; Chr BACKTICK; star word_or_dash;
   opt (N.eqb NL)].

(** r"\n?```$" *)
Definition FENCE_CLOSE : pattern :=
  [opt (N.eqb NL); Chr BACKTICK; Chr BACKTICK; Chr BACKTICK; Eol].

(** r"\s*\n\s*" *)
Definition NL_RUN : pattern := [star is_space; Chr NL; star is_space].

(** r"\s{2,}" *)
Definition WS_RUN : pattern := [Rep is_space 2 None].

(** The backtick step: [if s.startswith("`") and s.endswith("`")] *)
Definition unwrap_backticks (s : pystr) : pystr :=
  if startswith [BACKTICK] s && endswith [BACKTICK] s
  then strip (slice_1_m1 s) else s.

(** The last three statements of [normalize_one_line]. *)
Definition flatten (s : pystr) : pystr :=
  strip (re_sub WS_RUN [SPACE] (re_sub NL_RUN [SPACE] s)).

Definition normalize_one_line (s : pystr) : pystr :=
  match s with
  | [] => []
  | _ =>
      let s := strip s in
      let s := re_sub FENCE_OPEN [] s in
      let s := re_sub FENCE_CLOSE [] s in
      let s := unwrap_backticks s in
      flatten s
  end.

(** ** The danger classifier *)

Definition DANGEROUS_PATTERNS : list pattern :=
  [ (* r"rm\s+-rf\s+/\b" *)
    lit "rm" ++ [plus is_space] ++ lit "-rf" ++ [plus is_space] ++ lit "/"
      ++ [Wordb];
    (* r"mkfs\." *)
    lit "mkfs.";
    (* r"\bumount\b" *)
    [Wordb] ++ lit "umount" ++ [Wordb];
    (* r"\bdd\b\s+if=" *)
    [Wordb] ++ lit "dd" ++ [Wordb; plus is_space] ++ lit "if=";
    (* r"\bshutdown\b" *)
    [Wordb] ++ lit "shutdown" ++ [Wordb];
    (* r"\breboot\b" *)
    [Wordb] ++ lit "reboot" ++ [Wordb];
    (* r"\bchown\s+-R\s+root\b" *)
    [Wordb] ++ lit "chown" ++ [plus is_space] ++ lit "-R" ++ [plus is_space]
      ++ lit "root" ++ [Wordb];
    (* r"\bchmod\s+0{3,4}\b" *)
    [Wordb] ++ lit "chmod" ++ [plus is_space; Rep (N.eqb 48) 3 (Some 4%nat);
                               Wordb];
    (* r"\b:>\s*/\w" *)
    [Wordb] ++ lit ":>" ++ [star is_space] ++ lit "/" ++ [Cls is_word] ].

(** The loop of [is_dangerous]: the first pattern found ends it. *)
Fixpoint first_match (pats : list pattern) (cmd : pystr) : bool :=
  match pats with
  | [] => false
  | pat :: rest => if re_search pat cmd then true else first_match rest cmd
  end.

Definition is_dangerous (cmd : pystr) : bool :=
  first_match DANGEROUS_PATTERNS cmd.

End PythonRuntime.

(** ** The process environment *)

(** A value of the persisted JSON object: the program stores strings and,
    under [exit_code], an integer. *)
Inductive jval : Type :=
| JStr (s : pystr)
| JInt (z : Z).

(** Truth value of [d.get(k)]. *)
Definition truthy (v : option jval) : bool :=
  match v with
  | None => false
  | Some (JStr s) => match s with [] => false | _ => true end
  | Some (JInt z) => negb (z =? 0)%Z
  end.

(** [str(z)] *)
Definition py_int (z : Z) : pystr := py (NilZero.string_of_int (Z.to_int z)).

(** What [format] and f-strings print for a value. *)
Definition jtext (v : jval) : pystr :=
  match v with JStr s => s | JInt z => py_int z end.

(** The file at [STATE_PATH]: missing, present but not JSON, or an object. *)
Inductive state_file : Type :=
| Absent
| Unreadable
| Stored (d : gmap string jval).

Inductive exn : Type :=
| OSError          (* the history file cannot be opened or written *)
| EOFError         (* [input()] at the end of standard input *)
| AttributeError.  (* [.strip()] on a value that is not a string *)

Record World : Type := mkWorld {
  w_state : state_file;             (* STATE_PATH *)
  w_hist : list pystr;              (* HIST_PATH, one entry per write *)
  w_hist_ok : bool;                 (* whether HIST_PATH can be appended to *)
  w_stdin : list pystr;             (* the lines [input()] will read *)
  w_stdout : list pystr;            (* what was printed, in order *)
  w_stderr : list pystr;
  w_prompts : list (pystr * pystr); (* backend calls: model and prompt *)
  w_ran : list (pystr * pystr);     (* shell runs: shell and command *)
  w_now : pystr                     (* datetime.now().isoformat(...) *)
}.

Definition set_state (f : state_file) (w : World) : World :=
  mkWorld f (w_hist w) (w_hist_ok w) (w_stdin w) (w_stdout w) (w_stderr w)
          (w_prompts w) (w_ran w) (w_now w).
Definition add_hist (x : pystr) (w : World) : World :=
  mkWorld (w_state w) (w_hist w ++ [x]) (w_hist_ok w) (w_stdin w) (w_stdout w)
          (w_stderr w) (w_prompts w) (w_ran w) (w_now w).
Definition set_stdin (l : list pystr) (w : World) : World :=
  mkWorld (w_state w) (w_hist w) (w_hist_ok w) l (w_stdout w) (w_stderr w)
          (w_prompts w) (w_ran w) (w_now w).
Definition add_stdout (x : pystr) (w : World) : World :=
  mkWorld (w_state w) (w_hist w) (w_hist_ok w) (w_stdin w) (w_stdout w ++ [x])
          (w_stderr w) (w_prompts w) (w_ran w) (w_now w).
Definition add_stderr (x : pystr) (w : World) : World :=
  mkWorld (w_state w) (w_hist w) (w_hist_ok w) (w_stdin w) (w_stdout w)
          (w_stderr w ++ [x]) (w_prompts w) (w_ran w) (w_now w).
Definition add_prompt (x : pystr * pystr) (w : World) : World :=
  mkWorld (w_state w) (w_hist w) (w_hist_ok w) (w_stdin w) (w_stdout w)
          (w_stderr w) (w_prompts w ++ [x]) (w_ran w) (w_now w).
Definition add_ran (x : pystr * pystr) (w : World) : World :=
  mkWorld (w_state w) (w_hist w) (w_hist_ok w) (w_stdin w) (w_stdout w)
          (w_stderr w) (w_prompts w) (w_ran w ++ [x]) (w_now w).

(** How a computation ends: with a value, by [sys.exit(code)], or with an
    exception that nothing catches. *)
Inductive outcome (A : Type) : Type :=
| Ret (a : A)
| Exit (code : Z)
| Raise (e : exn).
Arguments Ret {A} a.
Arguments Exit {A} code.
Arguments Raise {A} e.

Definition M (A : Type) : Type := World -> outcome A * World.

Definition ret {A} (a : A) : M A := fun w => (Ret a, w).

Definition bind {A B} (m : M A) (k : A -> M B) : M B :=
  fun w =>
    match m w with
    | (Ret a, w') => k a w'
    | (Exit c, w') => (Exit c, w')
    | (Raise e, w') => (Raise e, w')
    end.

Notation "x <- m ;; k" := (bind m (fun x => k))
  (at level 100, m at next level, right associativity).
Notation "m ;;; k" := (bind m (fun _ => k))
  (at level 100, right associativity).

Definition sys_exit {A} (code : Z) : M A := fun w => (Exit code, w).
Definition raise {A} (e : exn) : M A := fun w => (Raise e, w).
Definition modify (f : World -> World) : M unit := fun w => (Ret tt, f w).

(** [print(s)], [print(s, end="")], [print(s, file=sys.stderr)],
    [sys.stderr.write(s)] *)
Definition print (s : pystr) : M unit := modify (add_stdout (s ++ [NL])).
Definition print_noend (s : pystr) : M unit := modify (add_stdout s).
Definition eprint (s : pystr) : M unit := modify (add_stderr (s ++ [NL])).
Definition ewrite (s : pystr) : M unit := modify (add_stderr s).

(** [input(prompt)] *)
Definition input (prompt : pystr) : M pystr :=
  fun w =>
    let w := add_stdout prompt w in
    match w_stdin w with
    | [] => (Raise EOFError, w)
    | l :: rest => (Ret l, set_stdin rest w)
    end.

(** ** Prompt templates *)

Definition lines (l : list pystr) : pystr := join [NL] l.

(** [SYSTEM_TEMPLATE.format(task=task)] *)
Definition SYSTEM_TEMPLATE (task : pystr) : pystr :=
  lines [
    py "You are a shell command generator.";
    [];
    py "Rules:";
    py "- Output ONLY a single shell command on one line, no markdown, no code fences, no quotes, no explanations, no "
      ++ [DQUOTE; BACKTICK; DQUOTE] ++ py ".";
    py "- Prefer portable POSIX sh where possible (macOS/BSD compatible if feasible).";
    py "- Do not include comments.";
    [];
    py "Task: " ++ task;
    [] ].

(** [REFINE_TEMPLATE.format(task=..., prev_cmd=..., problem=...)] *)
Definition REFINE_TEMPLATE (task prev_cmd problem : pystr) : pystr :=
  lines [
    py "You returned a wrong command previously.";
    [];
    py "Constraints:";
    py "- Output ONLY a single shell command on one line, no markdown, no code fences, no quotes, no explanations.";
    py "- Keep it portable POSIX sh when possible.";
    py "- Fix the issue while preserving the user's intent.";
    [];
    py "User task: " ++ task;
    py "Previous command: " ++ prev_cmd;
    py "Problem description (from user or stderr): " ++ problem;
    [] ].

(** [EXPLAIN_TEMPLATE.format(cmd=cmd)] *)
Definition EXPLAIN_TEMPLATE (cmd : pystr) : pystr :=
  lines [
    py "Explain briefly what the command does, in 1-5 bullet points, concise:";
    py "Command: " ++ cmd;
    [] ].

Definition ERR_EMPTY_SUGGEST : pystr :=
  py "[err] Model returned empty or multiline command. Refine your prompt.".
Definition ERR_EMPTY_REFINE : pystr :=
  py "[err] Model returned empty or multiline command. Try adding more detail to --why.".
Definition ERR_NO_STATE : pystr :=
  py "[err] No previous state found. Run a suggest/run first.".
Definition ERR_NO_TASK_REFINE : pystr :=
  py "[err] Provide a task (natural language) or use --use-last.".
Definition WARN_NO_PREV : pystr :=
  py "[warn] No previous command in state; refining without prev_cmd context.".
Definition ERR_NO_TASK : pystr := py "[err] Provide a task.".
Definition ERR_NO_CMD : pystr :=
  py "[err] Use --cmd '<command>' or --use-last with an existing state.".
Definition WARN_DANGEROUS : pystr :=
  py "[warn] Command looks dangerous. Not running without explicit consent.".

(** ** The program *)

Inductive mode : Type := Suggest | Run | Explain | Refine.

(** The namespace [argparse] returns. *)
Record Args : Type := mkArgs {
  a_task : list pystr;
  a_model : pystr;
  a_mode : mode;
  a_shell : pystr;
  a_no_history : bool;
  a_use_last : bool;
  a_why : pystr;
  a_cmd : pystr
}.

Section Program.

(** The Python runtime: the Unicode tables behind [\w] and [str.lower()]
    outside ASCII, and [textwrap.dedent]. *)
Variable uni_alnum : N -> bool.
Variable uni_lower : pystr -> pystr.
Variable dedent : pystr -> pystr.

(** The collaborators: [ollama run model prompt] gives its output, or the
    text of the [CalledProcessError] when it exits nonzero; the shell gives
    standard output, standard error and the return code of a command. *)
Variable ollama : pystr -> pystr -> pystr + pystr.
Variable shell_run : pystr -> pystr -> pystr * pystr * Z.

(** [s.lower()] *)
Definition lower (s : pystr) : pystr :=
  if forallb is_ascii s then List.map ascii_lower s else uni_lower s.

Definition call_ollama (model prompt : pystr) : M pystr :=
  modify (add_prompt (model, prompt)) ;;;
  match ollama model prompt with
  | inl out => ret (strip out)
  | inr e => eprint (py "[err] ollama failed: " ++ e) ;;; sys_exit 1
  end.

Definition save_history (task : jval) (cmd : pystr) : M unit :=
  fun w =>
    let ts := w_now w in
    if w_hist_ok w then
      (Ret tt,
       add_hist (py "[" ++ ts ++ py "] TASK: " ++ jtext task ++ [NL]
                 ++ py "[" ++ ts ++ py "] CMD:  " ++ cmd ++ [NL]) w)
    else (Raise OSError, w).

Definition load_state : M (gmap string jval) :=
  fun w =>
    match w_state w with
    | Stored d => (Ret d, w)
    | Absent | Unreadable => (Ret ∅, w)
    end.

Definition state_record (task : jval) (cmd : pystr)
    (last_error : option pystr) (exit_code : option Z) (now : pystr)
    : gmap string jval :=
  <["task"%string := task]>
  (<["cmd"%string := JStr cmd]>
  (<["last_error"%string := JStr (default [] last_error)]>
  (<["exit_code"%string :=
       match exit_code with Some z => JInt z | None => JStr [] end]>
  (<["timestamp"%string := JStr now]> ∅)))).

Definition save_state (task : jval) (cmd : pystr)
    (last_error : option pystr) (exit_code : option Z) : M unit :=
  fun w =>
    (Ret tt,
     set_state (Stored (state_record task cmd last_error exit_code (w_now w)))
               w).

Definition is_nil {A} (l : list A) : bool :=
  match l with [] => true | _ => false end.

Definition suggest (model task : pystr) : M pystr :=
  out <- call_ollama model (SYSTEM_TEMPLATE task) ;;
  let cmd := normalize_one_line uni_alnum out in
  if is_nil cmd || contains NL cmd
  then eprint ERR_EMPTY_SUGGEST ;;; sys_exit 2
  else ret cmd.

(** [problem.strip() or "no details"] *)
Definition why_text (p : pystr) : pystr :=
  if is_nil (strip p) then py "no details" else strip p.

Definition refine (model : pystr) (task prev_cmd problem : jval) : M pystr :=
  match problem with
  | JInt _ => raise AttributeError
  | JStr p =>
      out <- call_ollama model
               (REFINE_TEMPLATE (jtext task) (jtext prev_cmd) (why_text p)) ;;
      let cmd := normalize_one_line uni_alnum out in
      if is_nil cmd || contains NL cmd
      then eprint ERR_EMPTY_REFINE ;;; sys_exit 2
      else ret cmd
  end.

Definition explain (model cmd : pystr) : M pystr :=
  out <- call_ollama model (EXPLAIN_TEMPLATE cmd) ;;
  ret (strip out).

(** [confirm in ("y", "yes")] *)
Definition is_yes (s : pystr) : bool :=
  str_eqb s (py "y") || str_eqb s (py "yes").

Definition main_refine (args : Args) (state : gmap string jval) : M unit :=
  ctx <-
    (if a_use_last args then
       if negb (truthy (state !! "task"%string))
          || negb (truthy (state !! "cmd"%string))
       then eprint ERR_NO_STATE ;;; sys_exit 1
       else
         ret (default (JStr []) (state !! "task"%string),
              default (JStr []) (state !! "cmd"%string),
              if is_nil (a_why args)
              then default (JStr []) (state !! "last_error"%string)
              else JStr (a_why args))
     else
       if is_nil (a_task args)
       then eprint ERR_NO_TASK_REFINE ;;; sys_exit 1
       else
         let prev_cmd := default (JStr []) (state !! "cmd"%string) in
         (if truthy (Some prev_cmd) then ret tt else eprint WARN_NO_PREV) ;;;
         ret (JStr (join [SPACE] (a_task args)), prev_cmd, JStr (a_why args))) ;;
  let '(task, prev_cmd, problem) := ctx in
  cmd <- refine (a_model args) task prev_cmd problem ;;
  (if a_no_history args then ret tt else save_history task cmd) ;;;
  save_state task cmd None None ;;;
  print cmd.

Definition main_suggest (args : Args) : M unit :=
  if is_nil (a_task args) then eprint ERR_NO_TASK ;;; sys_exit 1
  else
    let task := join [SPACE] (a_task args) in
    cmd <- suggest (a_model args) task ;;
    (if a_no_history args then ret tt else save_history (JStr task) cmd) ;;;
    save_state (JStr task) cmd None None ;;;
    print cmd.

Definition main_explain (args : Args) (state : gmap string jval) : M unit :=
  cmd <-
    (if is_nil (strip (a_cmd args)) then
       let cmd := default (JStr []) (state !! "cmd"%string) in
       if truthy (Some cmd) then ret (jtext cmd)
       else eprint ERR_NO_CMD ;;; sys_exit 1
     else ret (strip (a_cmd args))) ;;
  text <- explain (a_model args) cmd ;;
  print (dedent (py "        Command:" ++ [NL]
                 ++ py "          " ++ cmd ++ [NL]
                 ++ [NL]
                 ++ py "        Explanation:" ++ [NL]
                 ++ py "        " ++ text ++ [NL]
                 ++ py "        ")).

(** The part of run mode after the confirmation: execute, and on failure
    offer a refinement round.  The first run captures its output and does
    not check the return code, so it raises no [CalledProcessError]; the
    second run has [check=True] and its own handler.  The outer handler of
    the source therefore never runs, and [sys.exit] passes through it. *)
Definition run_execute (args : Args) (task cmd : pystr) : M unit :=
  modify (add_ran (a_shell args, cmd)) ;;;
  let '(out, err, rc) := shell_run (a_shell args) cmd in
  if (rc =? 0)%Z then
    print_noend out ;;;
    (if a_no_history args then ret tt else save_history (JStr task) cmd) ;;;
    save_state (JStr task) cmd (Some []) (Some 0%Z) ;;;
    sys_exit 0
  else
    ewrite err ;;;
    save_state (JStr task) cmd (Some (strip err)) (Some rc) ;;;
    eprint ([NL] ++ py "[err] Command failed with exit code " ++ py_int rc
            ++ py ".") ;;;
    choice <- input (py "Refine based on this error? [y/N]: ") ;;
    if is_yes (strip (lower choice)) then
      improved <- refine (a_model args) (JStr task) (JStr cmd) (JStr err) ;;
      print ([NL] ++ py "Improved suggestion:" ++ [NL] ++ py "  " ++ improved) ;;;
      confirm2 <- input (py "Run improved command? [y/N]: ") ;;
      if is_yes (strip (lower confirm2)) then
        modify (add_ran (a_shell args, improved)) ;;;
        let '(out2, err2, rc2) := shell_run (a_shell args) improved in
        print_noend out2 ;;;
        ewrite err2 ;;;
        if (rc2 =? 0)%Z then
          (if a_no_history args then ret tt
           else save_history (JStr task) improved) ;;;
          save_state (JStr task) improved (Some []) (Some 0%Z) ;;;
          sys_exit 0
        else
          eprint (py "[err] Improved command failed (exit " ++ py_int rc2
                  ++ py ").") ;;;
          save_state (JStr task) improved (Some (py "exit " ++ py_int rc2))
                     (Some rc2) ;;;
          sys_exit rc2
      else
        save_state (JStr task) improved None None ;;;
        sys_exit 0
    else sys_exit rc.

Definition main_run (args : Args) : M unit :=
  if is_nil (a_task args) then eprint ERR_NO_TASK ;;; sys_exit 1
  else
    let task := join [SPACE] (a_task args) in
    cmd <- suggest (a_model args) task ;;
    print (py "Suggested:" ++ [NL] ++ py "  " ++ cmd ++ [NL]) ;;;
    (if is_dangerous uni_alnum cmd then
       eprint WARN_DANGEROUS ;;;
       line <- input (py "Type 'YES' to run anyway: ") ;;
       let confirm := strip line in
       if negb (str_eqb confirm (py "YES")) then
         print (py "Aborted.") ;;;
         save_state (JStr task) cmd None None ;;;
         sys_exit 3
       else ret tt
     else
       line <- input (py "Run this command? [y/N]: ") ;;
       let confirm := strip (lower line) in
       if negb (is_yes confirm) then
         print (py "Aborted.") ;;;
         save_state (JStr task) cmd None None ;;;
         sys_exit 0
       else ret tt) ;;;
    run_execute args task cmd.

Definition main (args : Args) : M unit :=
  state <- load_state ;;
  match a_mode args with
  | Refine => main_refine args state
  | Suggest => main_suggest args
  | Explain => main_explain args state
  | Run => main_run args
  end.

End Program.


(** ** What it means for a pattern to match

    The declarative reading of the patterns, against which the matcher is
    checked: [matches ua pat prev s n] says that [pat] matches the first
    [n] characters of [s], where [prev] is the character before them. *)

(** The character before the position reached after reading [pre]. *)
Definition last_opt (prev : option N) (pre : pystr) : option N :=
  fold_left (fun _ c => Some c) pre prev.

Definition within (hi : option nat) (n : nat) : Prop :=
  match hi with None => True | Some h => (n <= h)%nat end.

Inductive matches (ua : N -> bool)
  : pattern -> option N -> pystr -> nat -> Prop :=
| M_nil prev s : matches ua [] prev s O
| M_cls p pat prev c s n :
    p c = true -> matches ua pat (Some c) s n ->
    matches ua (Cls p :: pat) prev (c :: s) (S n)
| M_bol pat s n :
    matches ua pat None s n -> matches ua (Bol :: pat) None s n
| M_eol pat prev s n :
    at_end s = true -> matches ua pat prev s n ->
    matches ua (Eol :: pat) prev s n
| M_wordb pat prev s n :
    boundary ua prev s = true -> matches ua pat prev s n ->
    matches ua (Wordb :: pat) prev s n
| M_rep p lo hi pat prev pre rest n :
    forallb p pre = true -> (lo <= length pre)%nat ->
    within hi (length pre) ->
    matches ua pat (last_opt prev pre) rest n ->
    matches ua (Rep p lo hi :: pat) prev (pre ++ rest) (length pre + n).

(** [pat] matches somewhere in [s]. *)
Definition matches_in (ua : N -> bool) (pat : pattern) (s : pystr) : Prop :=
  exists pre post n,
    s = pre ++ post /\ matches ua pat (last_opt None pre) post n.

(** The opening and closing fence as text. *)
Definition FENCE : pystr := [BACKTICK; BACKTICK; BACKTICK].

(** The length of the longest prefix of characters in [p]. *)
Fixpoint run (p : N -> bool) (s : pystr) : nat :=
  match s with
  | c :: s' => if p c then S (run p s') else O
  | [] => O
  end.

(** No two adjacent white-space characters. *)
Definition single_spaced (s : pystr) : Prop :=
  forall pre a b post,
    s = pre ++ a :: b :: post -> is_space a && is_space b = false.

Definition space_head (s : pystr) : bool :=
  match s with c :: _ => is_space c | [] => false end.

(** The text of a string: its characters that are not white space. *)
Definition nonspace (s : pystr) : pystr :=
  List.filter (fun c => negb (is_space c)) s.

(** A table for the examples: no alphanumeric character outside ASCII. *)
Definition t0 : N -> bool := fun _ => false.

(** The object [load_state] returns in a world. *)
Definition stored (w : World) : gmap string jval :=
  match w_state w with Stored d => d | Absent | Unreadable => ∅ end.

Definition set_hist_ok (b : bool) (w : World) : World :=
  mkWorld (w_state w) (w_hist w) b (w_stdin w) (w_stdout w) (w_stderr w)
          (w_prompts w) (w_ran w) (w_now w).

(** ** Scenarios for the examples *)

(** A backend that answers [out] to every prompt, and a shell in which
    every command prints [out], writes [err] and returns [rc]. *)
Definition backend_says (out : pystr) : pystr -> pystr -> pystr + pystr :=
  fun _ _ => inl out.
Definition shell_gives (out err : pystr) (rc : Z)
  : pystr -> pystr -> pystr * pystr * Z :=
  fun _ _ => (out, err, rc).

(** A fresh process: the given state file, an empty history, the given
    lines on standard input. *)
Definition world0 (f : state_file) (hist_ok : bool) (stdin : list pystr)
  : World :=
  mkWorld f [] hist_ok stdin [] [] [] [] (py "2024-05-01T12:00:00").

Definition args0 (m : mode) (task : list pystr) (use_last : bool) : Args :=
  mkArgs task (py "mistral") m (py "/bin/bash") false use_last [] [].

Definition stored_ls : state_file :=
  Stored (state_record (JStr (py "list files")) (py "ls") None None
                       (py "2024-04-30T09:00:00")).

(** The string [normalize_one_line] has in hand after trimming and fence
    removal, when the backtick step begins. *)
Definition defenced (ua : N -> bool) (s : pystr) : pystr :=
  re_sub ua FENCE_CLOSE [] (re_sub ua (FENCE_OPEN ua) [] (strip s)).

(** The text [save_history] appends for a task and a command. *)
Definition history_entry (ts : pystr) (task : jval) (cmd : pystr) : pystr :=
  py "[" ++ ts ++ py "] TASK: " ++ jtext task ++ [NL]
  ++ py "[" ++ ts ++ py "] CMD:  " ++ cmd ++ [NL].

(** A backend whose process always exits nonzero. *)
Definition backend_fails (e : pystr) : pystr -> pystr -> pystr + pystr :=
  fun _ _ => inr e.

(** The identity, for the Unicode lowercase table and [textwrap.dedent] in
    the examples (their inputs are ASCII and have no common margin). *)
Definition same (s : pystr) : pystr := s.

Definition args_explain (cmd : pystr) : Args :=
  mkArgs [] (py "mistral") Explain (py "/bin/bash") false false [] cmd.

Definition args_quiet (m : mode) (task : list pystr) : Args :=
  mkArgs task (py "mistral") m (py "/bin/bash") true false [] [].

(** Refine mode with the reuse-last flag is about to call [.strip()] on a
    stored error that is not a string: a task and a command are stored, no
    [--why] text is given, and [last_error] holds a number. *)
Definition stored_error_not_text (args : Args) (w : World) : bool :=
  a_use_last args
  && truthy (stored w !! "task"%string)
  && truthy (stored w !! "cmd"%string)
  && is_nil (a_why args)
  && match stored w !! "last_error"%string with
     | Some (JInt _) => true
     | _ => false
     end.

(** * Properties *)

(** ** Strings *)

Lemma str_eqb_eq a b : str_eqb a b = true <-> a = b.
Proof. unfold str_eqb. destruct (decide (a = b)); split; congruence. Qed.

Lemma str_eqb_neq a b : str_eqb a b = false <-> a <> b.
Proof. unfold str_eqb. destruct (decide (a = b)); split; congruence. Qed.

Lemma contains_In c s : contains c s = true <-> In c s.
Proof.
  unfold contains. rewrite existsb_exists. split.
  - intros (x & Hx & E). apply N.eqb_eq in E. now subst.
  - intros H. exists c. split; [assumption | apply N.eqb_refl].
Qed.

Lemma contains_false c s : contains c s = false <-> ~ In c s.
Proof.
  rewrite <- contains_In. destruct (contains c s); split; congruence.
Qed.

Lemma lstrip_suffix s : exists x, s = x ++ lstrip s.
Proof.
  induction s as [|c s IH]; simpl.
  - now exists [].
  - destruct (is_space c).
    + destruct IH as [x Hx]. exists (c :: x). simpl. now f_equal.
    + now exists [].
Qed.

Lemma rstrip_prefix s : exists y, s = rstrip s ++ y.
Proof.
  unfold rstrip. destruct (lstrip_suffix (rev s)) as [x Hx].
  exists (rev x). rewrite <- rev_app_distr, <- Hx. symmetry. apply rev_involutive.
Qed.

Lemma strip_infix s : exists x y, s = x ++ strip s ++ y.
Proof.
  unfold strip. destruct (lstrip_suffix s) as [x Hx].
  destruct (rstrip_prefix (lstrip s)) as [y Hy].
  exists x, y. now rewrite <- Hy.
Qed.

Lemma strip_In c s : In c (strip s) -> In c s.
Proof.
  intros H. destruct (strip_infix s) as (x & y & E). rewrite E.
  apply in_or_app. right. apply in_or_app. now left.
Qed.

Lemma lstrip_idem s : lstrip (lstrip s) = lstrip s.
Proof.
  induction s as [|c s IH]; simpl; [reflexivity|].
  destruct (is_space c) eqn:E; [assumption|]. simpl. now rewrite E.
Qed.

Lemma lstrip_snoc l c :
  lstrip (l ++ [c]) =
  match lstrip l with
  | [] => if is_space c then [] else [c]
  | x => x ++ [c]
  end.
Proof.
  induction l as [|a l IH]; simpl; [reflexivity|].
  destruct (is_space a); [assumption | reflexivity].
Qed.

Lemma rstrip_cons c u :
  rstrip (c :: u) =
  match rstrip u with
  | [] => if is_space c then [] else [c]
  | x => c :: x
  end.
Proof.
  unfold rstrip. simpl. rewrite lstrip_snoc.
  destruct (lstrip (rev u)) as [|a l] eqn:E; simpl.
  - destruct (is_space c); reflexivity.
  - rewrite rev_app_distr. simpl.
    destruct (rev l ++ [a]) eqn:E'; [now destruct (rev l)|reflexivity].
Qed.

Lemma rstrip_idem s : rstrip (rstrip s) = rstrip s.
Proof.
  unfold rstrip. now rewrite rev_involutive, lstrip_idem.
Qed.

Lemma lstrip_fixed_rstrip u : lstrip u = u -> lstrip (rstrip u) = rstrip u.
Proof.
  destruct u as [|c u]; [reflexivity|].
  simpl. destruct (is_space c) eqn:E.
  - intros H. exfalso.
    destruct (lstrip_suffix u) as [x Hx]. rewrite H in Hx.
    apply (f_equal (@length N)) in Hx. rewrite length_app in Hx. simpl in Hx. lia.
  - intros _. rewrite rstrip_cons.
    destruct (rstrip u); rewrite ?E; simpl; now rewrite E.
Qed.

Lemma strip_idem s : strip (strip s) = strip s.
Proof.
  unfold strip. rewrite (lstrip_fixed_rstrip (lstrip s) (lstrip_idem s)).
  apply rstrip_idem.
Qed.

(** A string that starts and ends with a character that is not white
    space is left alone by [strip]. *)
Lemma lstrip_nonspace c s : is_space c = false -> lstrip (c :: s) = c :: s.
Proof. intros H. simpl. now rewrite H. Qed.

Lemma rstrip_nonspace_last s c :
  is_space c = false -> rstrip (s ++ [c]) = s ++ [c].
Proof.
  intros H. unfold rstrip. rewrite rev_app_distr. simpl. rewrite H.
  simpl. now rewrite rev_involutive.
Qed.

Lemma startswith_app p s : startswith p (p ++ s) = true.
Proof.
  induction p as [|x p IH]; simpl; [reflexivity|].
  now rewrite N.eqb_refl, IH.
Qed.

Lemma startswith_split p s :
  startswith p s = true -> exists r, s = p ++ r.
Proof.
  revert s. induction p as [|x p IH]; intros s H; simpl in *.
  - now exists s.
  - destruct s as [|y s]; [discriminate|].
    apply andb_prop in H as [E H]. apply N.eqb_eq in E. subst y.
    destruct (IH _ H) as [r ->]. now exists r.
Qed.

Lemma endswith_split p s :
  endswith p s = true -> exists r, s = r ++ p.
Proof.
  unfold endswith. intros H. apply startswith_split in H as [r Hr].
  exists (rev r). apply (f_equal (@rev N)) in Hr.
  rewrite rev_involutive, rev_app_distr, rev_involutive in Hr. exact Hr.
Qed.

Lemma endswith_app p s : endswith p (s ++ p) = true.
Proof. unfold endswith. rewrite rev_app_distr. apply startswith_app. Qed.

Lemma endswith_cons p c s :
  endswith p s = true -> endswith p (c :: s) = true.
Proof.
  intros H. apply endswith_split in H as [r ->].
  change (c :: r ++ p) with ((c :: r) ++ p). apply endswith_app.
Qed.

(** ** The matcher *)

Lemma last_opt_snoc prev pre c : last_opt prev (pre ++ [c]) = Some c.
Proof. unfold last_opt. now rewrite fold_left_app. Qed.

Lemma last_opt_app prev a b : last_opt prev (a ++ b) = last_opt (last_opt prev a) b.
Proof. unfold last_opt. apply fold_left_app. Qed.

Lemma rep_sound p k s :
  forall lo hi prev n,
    rep p k lo hi prev s = Some n ->
    exists pre rest m,
      s = pre ++ rest /\ forallb p pre = true /\ (lo <= length pre)%nat /\
      within hi (length pre) /\ k (last_opt prev pre) rest = Some m /\
      n = (length pre + m)%nat.
Proof.
  assert (Hstop : forall lo hi prev n u,
             match lo with O => k prev u | S _ => None end = Some n ->
             exists pre rest m,
               u = pre ++ rest /\ forallb p pre = true /\
               (lo <= length pre)%nat /\ within hi (length pre) /\
               k (last_opt prev pre) rest = Some m /\
               n = (length pre + m)%nat).
  { intros lo hi prev n u H. destruct lo; [|discriminate].
    exists [], u, n. repeat split; simpl; auto.
    destruct hi; simpl; lia. }
  induction s as [|c s IH]; intros lo hi prev n H; simpl in H.
  - now apply Hstop.
  - destruct (p c && more hi) eqn:E; [|now apply Hstop].
    destruct (rep p k (Nat.pred lo) (dec hi) (Some c) s) as [n'|] eqn:R;
      [|now apply Hstop].
    injection H as <-. apply andb_prop in E as [Ep Em].
    destruct (IH _ _ _ _ R) as (pre & rest & m & -> & Hp & Hlo & Hhi & Hk & ->).
    exists (c :: pre), rest, m. simpl. rewrite Ep, Hp.
    repeat split; auto; try lia.
    destruct hi as [[|h]|]; simpl in *; try discriminate; auto; lia.
Qed.

Lemma rep_complete p k pre :
  forall rest lo hi prev m,
    forallb p pre = true -> (lo <= length pre)%nat ->
    within hi (length pre) ->
    k (last_opt prev pre) rest = Some m ->
    exists n, rep p k lo hi prev (pre ++ rest) = Some n.
Proof.
  induction pre as [|c pre IH]; intros rest lo hi prev m Hp Hlo Hhi Hk;
    simpl in *.
  - assert (lo = O) by lia. subst lo.
    destruct rest as [|c r]; simpl; [eauto|].
    destruct (p c && more hi); [|eauto].
    destruct (rep p k _ _ _ r); eauto.
  - apply andb_prop in Hp as [Ec Hp]. rewrite Ec.
    assert (Hm : more hi = true).
    { destruct hi as [[|h]|]; simpl in *; auto; lia. }
    rewrite Hm. simpl.
    destruct (IH rest (Nat.pred lo) (dec hi) (Some c) m) as [n Hn]; auto.
    + lia.
    + destruct hi as [h|]; simpl in *; auto; lia.
    + rewrite Hn. eauto.
Qed.

Section Matcher.

Variable ua : N -> bool.

Theorem match_here_sound pat :
  forall prev s n, match_here ua pat prev s = Some n -> matches ua pat prev s n.
Proof.
  induction pat as [|a pat IH]; intros prev s n H; simpl in H.
  - injection H as <-. constructor.
  - destruct a as [p| | | |p lo hi].
    + destruct s as [|c s]; [discriminate|].
      destruct (p c) eqn:E; [|discriminate].
      destruct (match_here ua pat (Some c) s) as [m|] eqn:R; [|discriminate].
      injection H as <-. constructor; auto.
    + destruct prev; [discriminate|]. constructor; auto.
    + destruct (at_end s) eqn:E; [|discriminate]. constructor; auto.
    + destruct (boundary ua prev s) eqn:E; [|discriminate]. constructor; auto.
    + apply rep_sound in H
        as (pre & rest & m & -> & Hp & Hlo & Hhi & Hk & ->).
      constructor; auto.
Qed.

Theorem match_here_complete pat prev s n :
  matches ua pat prev s n -> exists n', match_here ua pat prev s = Some n'.
Proof.
  induction 1 as [ | p pat prev c s n Hp _ [n' IH] | pat s n _ [n' IH]
                   | pat prev s n He _ [n' IH] | pat prev s n Hb _ [n' IH]
                   | p lo hi pat prev pre rest n Hp Hlo Hhi _ [n' IH] ];
    simpl.
  - eauto.
  - rewrite Hp, IH. simpl. eauto.
  - eauto.
  - rewrite He. eauto.
  - rewrite Hb. eauto.
  - eapply rep_complete; eauto.
Qed.

Lemma match_here_length pat prev s n :
  match_here ua pat prev s = Some n -> (n <= length s)%nat.
Proof.
  intros H. apply match_here_sound in H.
  induction H; simpl; try lia. rewrite length_app. lia.
Qed.

Lemma search_spec pat s :
  forall prev,
    search ua pat prev s = true <->
    exists pre post n,
      s = pre ++ post /\ matches ua pat (last_opt prev pre) post n.
Proof.
  induction s as [|c s IH]; intros prev; simpl.
  - destruct (match_here ua pat prev []) as [n|] eqn:E.
    + split; [intros _|reflexivity].
      exists [], [], n. split; [reflexivity|]. now apply match_here_sound.
    + split; [discriminate|]. intros (pre & post & n & Hs & Hm).
      symmetry in Hs. apply app_eq_nil in Hs as [-> ->].
      apply match_here_complete in Hm as [n' Hn]. simpl in Hn. congruence.
  - destruct (match_here ua pat prev (c :: s)) as [n|] eqn:E.
    + split; [intros _|reflexivity].
      exists [], (c :: s), n. split; [reflexivity|]. now apply match_here_sound.
    + rewrite IH. split.
      * intros (pre & post & n & -> & Hm). exists (c :: pre), post, n.
        split; [reflexivity|]. exact Hm.
      * intros (pre & post & n & Hs & Hm). destruct pre as [|x pre].
        -- simpl in Hs. subst post.
           apply match_here_complete in Hm as [n' Hn]. simpl in Hn. congruence.
        -- simpl in Hs. injection Hs as <- ->. exists pre, post, n.
           split; [reflexivity|]. exact Hm.
Qed.

Theorem re_search_spec pat s :
  re_search ua pat s = true <-> matches_in ua pat s.
Proof. apply search_spec. Qed.

End Matcher.

(** ** Substitution *)

Section Substitution.

Variable ua : N -> bool.

Lemma search_nil pat prev :
  search ua pat prev [] =
  match match_here ua pat prev [] with Some _ => true | None => false end.
Proof. reflexivity. Qed.

Lemma search_cons pat prev c s :
  search ua pat prev (c :: s) =
  match match_here ua pat prev (c :: s) with
  | Some _ => true
  | None => search ua pat (Some c) s
  end.
Proof. reflexivity. Qed.

Lemma sub_scan_nil pat repl skip prev :
  sub_scan ua pat repl skip prev [] =
  match skip, match_here ua pat prev [] with
  | O, Some _ => repl
  | _, _ => []
  end.
Proof. reflexivity. Qed.

Lemma sub_scan_skip pat repl k prev c s :
  sub_scan ua pat repl (S k) prev (c :: s) = sub_scan ua pat repl k (Some c) s.
Proof. reflexivity. Qed.

Lemma sub_scan_try pat repl prev c s :
  sub_scan ua pat repl O prev (c :: s) =
  match match_here ua pat prev (c :: s) with
  | Some O => repl ++ c :: sub_scan ua pat repl O (Some c) s
  | Some (S n) => repl ++ sub_scan ua pat repl n (Some c) s
  | None => c :: sub_scan ua pat repl O (Some c) s
  end.
Proof. reflexivity. Qed.

(** Where nothing matches, [re.sub] returns its input. *)
Lemma sub_scan_no_match pat repl s :
  forall prev, search ua pat prev s = false -> sub_scan ua pat repl O prev s = s.
Proof.
  induction s as [|c s IH]; intros prev H; simpl in *.
  - now destruct (match_here ua pat prev []).
  - destruct (match_here ua pat prev (c :: s)); [discriminate|].
    f_equal. now apply IH.
Qed.

(** [re.sub] invents no character: each one comes from the input or from
    the replacement. *)
Lemma sub_scan_In pat repl x s :
  forall skip prev,
    In x (sub_scan ua pat repl skip prev s) -> In x repl \/ In x s.
Proof.
  induction s as [|c s IH]; intros skip prev H; simpl in *.
  - destruct skip; [|contradiction].
    destruct (match_here ua pat prev []); [now left|contradiction].
  - destruct skip as [|k].
    + destruct (match_here ua pat prev (c :: s)) as [[|n]|].
      * apply in_app_or in H as [H|[H|H]]; auto.
        destruct (IH _ _ H); auto.
      * apply in_app_or in H as [H|H]; auto.
        destruct (IH _ _ H); auto.
      * destruct H as [H|H]; auto. destruct (IH _ _ H); auto.
    + destruct (IH _ _ H); auto.
Qed.

(** A character at which the pattern always matches at least one
    character never survives [re.sub], unless the replacement has it. *)
Lemma sub_scan_removes pat repl x :
  (forall prev s, exists n, match_here ua pat prev (x :: s) = Some (S n)) ->
  ~ In x repl ->
  forall s skip prev, ~ In x (sub_scan ua pat repl skip prev s).
Proof.
  intros Hm Hr. induction s as [|c s IH]; intros skip prev H; simpl in H.
  - destruct skip; [|contradiction].
    destruct (match_here ua pat prev []); auto.
  - destruct skip as [|k]; [|now apply IH in H].
    destruct (match_here ua pat prev (c :: s)) as [[|n]|] eqn:E.
    + apply in_app_or in H as [H|[H|H]]; auto.
      * subst c. destruct (Hm prev s) as [n Hn]. congruence.
      * now apply IH in H.
    + apply in_app_or in H as [H|H]; auto. now apply IH in H.
    + destruct H as [H|H].
      * subst c. destruct (Hm prev s) as [n Hn]. congruence.
      * now apply IH in H.
Qed.

(** *** The four patterns of the normalizer *)

Lemma rep_total p k lo hi prev s :
  lo = O -> (forall q u, exists n, k q u = Some n) ->
  exists n, rep p k lo hi prev s = Some n.
Proof.
  intros -> Hk. destruct s as [|c s]; simpl; [apply Hk|].
  destruct (p c && more hi); [|apply Hk].
  destruct (rep p k _ _ _ s); eauto.
Qed.

Lemma nl_run_at_newline prev s :
  exists n, match_here ua NL_RUN prev (NL :: s) = Some (S n).
Proof.
  assert (Hk : forall q, exists n,
             match_here ua [Chr NL; star is_space] q (NL :: s) = Some (S n)).
  { intros q. simpl. 
    destruct (rep_total is_space (fun _ _ => Some O) O None (Some NL) s)
      as [n Hn]; [reflexivity | eauto |].
    unfold NL in *. rewrite Hn. simpl. eauto. }
  unfold NL_RUN. unfold star at 1. cbn [match_here].
  cbn [rep]. change (is_space NL) with true. cbn [more andb].
  destruct (rep is_space _ _ _ _ s) as [n|]; [eauto|]. apply (Hk prev).
Qed.

Lemma nl_run_needs_newline prev s n :
  match_here ua NL_RUN prev s = Some n -> In NL s.
Proof.
  unfold NL_RUN, star. simpl match_here. intros H.
  apply rep_sound in H as (pre & rest & m & -> & _ & _ & _ & Hk & _).
  apply in_or_app. right.
  unfold Chr in Hk. cbn [match_here] in Hk.
  destruct rest as [|c r]; [discriminate|].
  destruct c as [|q]; [discriminate|].
  destruct (10 =? q)%positive eqn:E; [|discriminate].
  apply Pos.eqb_eq in E. subst q. now left.
Qed.

Lemma search_nl_run_false s :
  ~ In NL s -> forall prev, search ua NL_RUN prev s = false.
Proof.
  induction s as [|c s IH]; intros Hn prev;
    [rewrite search_nil | rewrite search_cons].
  - destruct (match_here ua NL_RUN prev []) eqn:E; [|reflexivity].
    now apply nl_run_needs_newline in E.
  - destruct (match_here ua NL_RUN prev (c :: s)) eqn:E.
    + now apply nl_run_needs_newline in E.
    + apply IH. intros H. apply Hn. now right.
Qed.

Lemma rep_greedy p s :
  forall lo prev,
    rep p (fun _ _ => Some O) lo None prev s =
    if (lo <=? run p s)%nat then Some (run p s) else None.
Proof.
  induction s as [|c s IH]; intros lo prev; simpl.
  - now destruct lo.
  - destruct (p c); simpl.
    + rewrite IH. destruct lo as [|lo]; simpl.
      * reflexivity.
      * destruct (lo <=? run p s)%nat; reflexivity.
    + now destruct lo.
Qed.

Lemma ws_run_match prev s :
  match_here ua WS_RUN prev s =
  if (2 <=? run is_space s)%nat then Some (run is_space s) else None.
Proof. unfold WS_RUN. simpl match_here. apply rep_greedy. Qed.

Lemma single_spaced_nil : single_spaced [].
Proof. intros [|x pre] a b post H; discriminate. Qed.

Lemma single_spaced_cons c s :
  single_spaced s -> is_space c && space_head s = false ->
  single_spaced (c :: s).
Proof.
  intros Hs Hc [|x pre] a b post H; simpl in H.
  - injection H as <- ->. exact Hc.
  - injection H as <- ->. eapply Hs. reflexivity.
Qed.

Lemma single_spaced_tail c s : single_spaced (c :: s) -> single_spaced s.
Proof.
  intros H pre a b post E. apply (H (c :: pre) a b post). simpl. now f_equal.
Qed.

Lemma single_spaced_infix x s y : single_spaced (x ++ s ++ y) -> single_spaced s.
Proof.
  intros H pre a b post E. apply (H (x ++ pre) a b (post ++ y)).
  rewrite E. rewrite <- !app_assoc. reflexivity.
Qed.

Lemma single_spaced_strip s : single_spaced s -> single_spaced (strip s).
Proof.
  intros H. destruct (strip_infix s) as (x & y & E).
  rewrite E in H. now apply single_spaced_infix in H.
Qed.

Lemma run_space_head s : (run is_space s = O) -> space_head s = false.
Proof. destruct s as [|c s]; simpl; [reflexivity|]. now destruct (is_space c). Qed.

(** The output of [re.sub(r"\s{2,}", " ", s)] is single-spaced. *)
Lemma ws_run_scan s :
  forall skip prev,
    skip = O \/ skip = run is_space s ->
    single_spaced (sub_scan ua WS_RUN [SPACE] skip prev s) /\
    (space_head (sub_scan ua WS_RUN [SPACE] skip prev s) = true ->
     skip = O /\ space_head s = true).
Proof.
  induction s as [|c s IH]; intros skip prev Hskip.
  - assert (skip = O) by (destruct Hskip; auto). subst skip.
    rewrite sub_scan_nil, ws_run_match. simpl.
    split; [apply single_spaced_nil | discriminate].
  - destruct skip as [|k].
    + rewrite sub_scan_try, ws_run_match. simpl run.
      destruct (is_space c) eqn:Ec.
      * destruct (run is_space s) as [|r] eqn:Er; simpl.
        -- destruct (IH O (Some c) (or_introl eq_refl)) as [H1 H2].
           split; [|intros _; now rewrite Ec].
           apply single_spaced_cons; auto.
           destruct (space_head (sub_scan ua WS_RUN [SPACE] 0 (Some c) s)) eqn:E;
             [|now rewrite andb_false_r].
           destruct (H2 eq_refl) as [_ H3].
           apply run_space_head in Er. congruence.
        -- destruct (IH (S r) (Some c) (or_intror eq_refl)) as [H1 H2].
           split; [|intros _; now rewrite Ec].
           apply single_spaced_cons; auto.
           destruct (space_head (sub_scan ua WS_RUN [SPACE] (S r) (Some c) s)) eqn:E;
             [|now rewrite andb_false_r].
           destruct (H2 eq_refl) as [H3 _]. discriminate.
      * simpl. destruct (IH O (Some c) (or_introl eq_refl)) as [H1 H2].
        split; [|simpl; congruence].
        apply single_spaced_cons; auto. now rewrite Ec.
    + rewrite sub_scan_skip.
      destruct Hskip as [?|Hk]; [discriminate|]. simpl in Hk.
      destruct (is_space c) eqn:Ec; [|discriminate]. injection Hk as ->.
      destruct (IH (run is_space s) (Some c) (or_intror eq_refl)) as [H1 H2].
      split; [assumption|]. intros H. destruct (H2 H) as [H3 H4].
      apply run_space_head in H3. congruence.
Qed.

Lemma re_sub_ws_run_single_spaced s :
  single_spaced (re_sub ua WS_RUN [SPACE] s).
Proof. apply (ws_run_scan s O None). now left. Qed.

Lemma run_two p s :
  (2 <= run p s)%nat ->
  exists a b r, s = a :: b :: r /\ p a = true /\ p b = true.
Proof.
  destruct s as [|a [|b r]]; simpl.
  - lia.
  - destruct (p a); lia.
  - destruct (p a) eqn:Ea; [|lia]. destruct (p b) eqn:Eb; [|lia].
    intros _. now exists a, b, r.
Qed.

Lemma ws_run_needs_two prev s n :
  match_here ua WS_RUN prev s = Some n ->
  exists a b r, s = a :: b :: r /\ is_space a = true /\ is_space b = true.
Proof.
  rewrite ws_run_match.
  destruct (2 <=? run is_space s)%nat eqn:E; [|discriminate].
  intros _. apply run_two. now apply Nat.leb_le.
Qed.

Lemma search_ws_run_false s :
  single_spaced s -> forall prev, search ua WS_RUN prev s = false.
Proof.
  induction s as [|c s IH]; intros Hs prev;
    [rewrite search_nil | rewrite search_cons].
  - destruct (match_here ua WS_RUN prev []) eqn:E; [|reflexivity].
    apply ws_run_needs_two in E as (a & b & r & E & _). discriminate.
  - destruct (match_here ua WS_RUN prev (c :: s)) eqn:E.
    + apply ws_run_needs_two in E as (a & b & r & E & Ha & Hb).
      specialize (Hs [] a b r E). rewrite Ha, Hb in Hs. discriminate.
    + apply IH. now apply single_spaced_tail in Hs.
Qed.

End Substitution.

(** ** The normalizer *)

Section Normalizer.

Variable ua : N -> bool.

Lemma search_bol_later pat s :
  forall c, search ua (Bol :: pat) (Some c) s = false.
Proof.
  induction s as [|x s IH]; intros c;
    [rewrite search_nil | rewrite search_cons];
    cbn [match_here]; [reflexivity | apply IH].
Qed.

Lemma fence_open_needs_fence s n :
  match_here ua (FENCE_OPEN ua) None s = Some n -> startswith FENCE s = true.
Proof.
  intros H. apply match_here_sound in H. unfold FENCE_OPEN, Chr in H.
  inversion H as [ | | ? ? ? H1 | | | ]; subst.
  inversion H1 as [ | ? ? ? a ? ? Ea H2 | | | | ]; subst.
  inversion H2 as [ | ? ? ? b ? ? Eb H3 | | | | ]; subst.
  inversion H3 as [ | ? ? ? c ? ? Ec H4 | | | | ]; subst.
  apply N.eqb_eq in Ea, Eb, Ec. subst. reflexivity.
Qed.

Lemma re_sub_fence_open_id s :
  startswith FENCE s = false -> re_sub ua (FENCE_OPEN ua) [] s = s.
Proof.
  intros H. apply sub_scan_no_match.
  destruct s as [|c s]; [rewrite search_nil | rewrite search_cons].
  - destruct (match_here ua (FENCE_OPEN ua) None []) eqn:E; [|reflexivity].
    apply fence_open_needs_fence in E. discriminate.
  - destruct (match_here ua (FENCE_OPEN ua) None (c :: s)) eqn:E.
    + apply fence_open_needs_fence in E. congruence.
    + apply search_bol_later.
Qed.

Lemma at_end_cases s : at_end s = true -> s = [] \/ s = [NL].
Proof.
  destruct s as [|c [|d s]]; simpl; auto; [|discriminate].
  intros H. apply N.eqb_eq in H. subst. now right.
Qed.

Lemma fence_close_needs_fence prev s n :
  match_here ua FENCE_CLOSE prev s = Some n ->
  endswith FENCE s = true \/ endswith [NL] s = true.
Proof.
  intros H. apply match_here_sound in H. unfold FENCE_CLOSE, Chr in H.
  inversion H as [ | | | | | ? ? ? ? ? pre rest ? _ _ _ H1 ]; subst.
  inversion H1 as [ | ? ? ? a ? ? Ea H2 | | | | ]; subst.
  inversion H2 as [ | ? ? ? b ? ? Eb H3 | | | | ]; subst.
  inversion H3 as [ | ? ? ? c ? ? Ec H4 | | | | ]; subst.
  inversion H4 as [ | | | ? ? ? ? He _ | | ]; subst.
  apply N.eqb_eq in Ea, Eb, Ec. subst.
  apply at_end_cases in He as [-> | ->].
  - left. apply (endswith_app FENCE pre).
  - right. change (pre ++ [BACKTICK; BACKTICK; BACKTICK; NL])
      with (pre ++ FENCE ++ [NL]).
    rewrite app_assoc. apply endswith_app.
Qed.

Lemma search_fence_close_false s :
  endswith FENCE s = false -> endswith [NL] s = false ->
  forall prev, search ua FENCE_CLOSE prev s = false.
Proof.
  induction s as [|c s IH]; intros H1 H2 prev;
    [rewrite search_nil | rewrite search_cons].
  - destruct (match_here ua FENCE_CLOSE prev []) eqn:E; [|reflexivity].
    apply fence_close_needs_fence in E as [E|E]; congruence.
  - destruct (match_here ua FENCE_CLOSE prev (c :: s)) eqn:E.
    + apply fence_close_needs_fence in E as [E|E]; congruence.
    + apply IH.
      * destruct (endswith FENCE s) eqn:F; [|reflexivity].
        apply (endswith_cons _ c) in F. congruence.
      * destruct (endswith [NL] s) eqn:F; [|reflexivity].
        apply (endswith_cons _ c) in F. congruence.
Qed.

Lemma re_sub_fence_close_id s :
  endswith FENCE s = false -> endswith [NL] s = false ->
  re_sub ua FENCE_CLOSE [] s = s.
Proof.
  intros H1 H2. apply sub_scan_no_match. now apply search_fence_close_false.
Qed.

Lemma lstrip_head s c r : lstrip s = c :: r -> is_space c = false.
Proof.
  induction s as [|x s IH]; simpl; [discriminate|].
  destruct (is_space x) eqn:E; [assumption|].
  intros H. injection H as <- _. exact E.
Qed.

Lemma rstrip_last s r c : rstrip s = r ++ [c] -> is_space c = false.
Proof.
  unfold rstrip. intros H. apply (f_equal (@rev N)) in H.
  rewrite rev_involutive, rev_app_distr in H. simpl in H.
  now apply lstrip_head in H.
Qed.

Lemma stripped_last s c :
  strip s = s -> endswith [c] s = true -> is_space c = false.
Proof.
  intros Hs He. apply endswith_split in He as [r ->].
  unfold strip in Hs. now apply rstrip_last in Hs.
Qed.

Lemma stripped_no_final_newline s : strip s = s -> endswith [NL] s = false.
Proof.
  intros Hs. destruct (endswith [NL] s) eqn:E; [|reflexivity].
  apply (stripped_last _ _ Hs) in E. discriminate.
Qed.

(** What [flatten] returns is trimmed, has no newline and no two adjacent
    white-space characters. *)
Lemma flatten_no_newline u : ~ In NL (flatten ua u).
Proof.
  unfold flatten. intros H. apply strip_In in H.
  apply sub_scan_In in H as [[H|[]]|H]; [discriminate|].
  revert H. apply sub_scan_removes.
  - apply nl_run_at_newline.
  - intros [H|[]]. discriminate.
Qed.

Lemma flatten_stripped u : strip (flatten ua u) = flatten ua u.
Proof. apply strip_idem. Qed.

Lemma flatten_single_spaced u : single_spaced (flatten ua u).
Proof. apply single_spaced_strip, re_sub_ws_run_single_spaced. Qed.

Lemma flatten_fixed t :
  strip t = t -> ~ In NL t -> single_spaced t -> flatten ua t = t.
Proof.
  intros H1 H2 H3. unfold flatten, re_sub.
  rewrite (sub_scan_no_match ua NL_RUN) by now apply search_nl_run_false.
  rewrite (sub_scan_no_match ua WS_RUN) by now apply search_ws_run_false.
  exact H1.
Qed.

Lemma normalize_cases s :
  normalize_one_line ua s = [] \/ exists u, normalize_one_line ua s = flatten ua u.
Proof. destruct s; simpl; eauto. Qed.

Lemma normalize_no_newline s : ~ In NL (normalize_one_line ua s).
Proof.
  destruct (normalize_cases s) as [-> | [u ->]]; [intros []|].
  apply flatten_no_newline.
Qed.

Lemma normalize_stripped s :
  strip (normalize_one_line ua s) = normalize_one_line ua s.
Proof.
  destruct (normalize_cases s) as [-> | [u ->]]; [reflexivity|].
  apply flatten_stripped.
Qed.

Lemma normalize_single_spaced s : single_spaced (normalize_one_line ua s).
Proof.
  destruct (normalize_cases s) as [-> | [u ->]]; [apply single_spaced_nil|].
  apply flatten_single_spaced.
Qed.

(** Without fences, [normalize_one_line] is the backtick step followed by
    [flatten]. *)
Lemma normalize_no_fence s :
  strip s = s -> startswith FENCE s = false -> endswith FENCE s = false ->
  normalize_one_line ua s = flatten ua (unwrap_backticks s).
Proof.
  intros H1 H2 H3. destruct s as [|c s]; [reflexivity|].
  unfold normalize_one_line. rewrite H1.
  rewrite re_sub_fence_open_id by assumption.
  rewrite re_sub_fence_close_id; auto using stripped_no_final_newline.
Qed.


(** *** Flattening only touches white space *)

Lemma nonspace_app a b : nonspace (a ++ b) = nonspace a ++ nonspace b.
Proof. apply List.filter_app. Qed.

Lemma nonspace_cons c s :
  nonspace (c :: s) = if is_space c then nonspace s else c :: nonspace s.
Proof. unfold nonspace. cbn [List.filter]. now destruct (is_space c). Qed.

Lemma nonspace_spaces s : forallb is_space s = true -> nonspace s = [].
Proof.
  induction s as [|c s IH]; simpl; [reflexivity|].
  intros H. apply andb_prop in H as [Hc Hs]. rewrite Hc. simpl. auto.
Qed.

Lemma nonspace_lstrip s : nonspace (lstrip s) = nonspace s.
Proof.
  induction s as [|c s IH]; simpl; [reflexivity|].
  destruct (is_space c) eqn:E; simpl; [assumption|]. now rewrite E.
Qed.

Lemma nonspace_rev s : nonspace (rev s) = rev (nonspace s).
Proof.
  induction s as [|c s IH]; simpl; [reflexivity|].
  rewrite nonspace_app, IH. simpl.
  destruct (is_space c); simpl; [apply app_nil_r | reflexivity].
Qed.

Lemma nonspace_strip s : nonspace (strip s) = nonspace s.
Proof.
  unfold strip, rstrip.
  now rewrite nonspace_rev, nonspace_lstrip, nonspace_rev, rev_involutive,
    nonspace_lstrip.
Qed.

Lemma sub_scan_nonspace pat repl :
  (forall prev s n,
      match_here ua pat prev s = Some n ->
      forallb is_space (firstn n s) = true) ->
  forallb is_space repl = true ->
  forall s skip prev,
    forallb is_space (firstn skip s) = true ->
    nonspace (sub_scan ua pat repl skip prev s) = nonspace s.
Proof.
  intros Hm Hr. apply nonspace_spaces in Hr.
  induction s as [|c s IH]; intros skip prev Hk.
  - rewrite sub_scan_nil.
    destruct skip; [|reflexivity].
    destruct (match_here ua pat prev []); [assumption | reflexivity].
  - destruct skip as [|k].
    + rewrite sub_scan_try.
      destruct (match_here ua pat prev (c :: s)) as [[|n]|] eqn:E.
      * rewrite nonspace_app, Hr, app_nil_l, !nonspace_cons.
        now rewrite (IH O (Some c) eq_refl).
      * apply Hm in E. cbn [firstn forallb] in E.
        apply andb_prop in E as [Ec En].
        rewrite nonspace_app, Hr, app_nil_l, nonspace_cons, Ec.
        now apply IH.
      * rewrite !nonspace_cons. now rewrite (IH O (Some c) eq_refl).
    + rewrite sub_scan_skip. cbn [firstn forallb] in Hk.
      apply andb_prop in Hk as [Ec En].
      rewrite nonspace_cons, Ec. now apply IH.
Qed.

Lemma firstn_length_app {A} (a b : list A) n :
  n = length a -> firstn n (a ++ b) = a.
Proof.
  intros ->. rewrite firstn_app, Nat.sub_diag, firstn_all. simpl.
  apply app_nil_r.
Qed.

Lemma nl_run_covers_spaces prev s n :
  match_here ua NL_RUN prev s = Some n ->
  forallb is_space (firstn n s) = true.
Proof.
  intros H. apply match_here_sound in H. unfold NL_RUN, star, Chr in H.
  inversion H as [ | | | | | ? ? ? ? ? pre rest m Hp _ _ H1 ]; subst.
  inversion H1 as [ | ? ? ? c ? k Ec H2 | | | | ]; subst.
  inversion H2 as [ | | | | | ? ? ? ? ? pre2 rest2 j Hp2 _ _ H3 ]; subst.
  inversion H3; subst.
  apply N.eqb_eq in Ec. subst c.
  replace (pre ++ NL :: pre2 ++ rest2) with ((pre ++ NL :: pre2) ++ rest2)
    by (rewrite <- app_assoc; reflexivity).
  rewrite firstn_length_app.
  - rewrite forallb_app, Hp. simpl. exact Hp2.
  - rewrite length_app. simpl. lia.
Qed.

Lemma run_prefix p s : forallb p (firstn (run p s) s) = true.
Proof.
  induction s as [|c s IH]; simpl; [reflexivity|].
  destruct (p c) eqn:E; simpl; [|reflexivity]. now rewrite E.
Qed.

Lemma ws_run_covers_spaces prev s n :
  match_here ua WS_RUN prev s = Some n ->
  forallb is_space (firstn n s) = true.
Proof.
  rewrite ws_run_match.
  destruct (2 <=? run is_space s)%nat; [|discriminate].
  intros H. injection H as <-. apply run_prefix.
Qed.

(** [flatten] keeps every character that is not white space, in order. *)
Lemma flatten_nonspace s : nonspace (flatten ua s) = nonspace s.
Proof.
  unfold flatten, re_sub. rewrite nonspace_strip.
  rewrite (sub_scan_nonspace WS_RUN [SPACE] ws_run_covers_spaces eq_refl)
    by reflexivity.
  now rewrite (sub_scan_nonspace NL_RUN [SPACE] nl_run_covers_spaces eq_refl)
    by reflexivity.
Qed.


(** *** No step of the normalizer makes the string longer *)

Lemma strip_length s : (length (strip s) <= length s)%nat.
Proof.
  destruct (strip_infix s) as (x & y & E).
  rewrite E at 2. rewrite !length_app. lia.
Qed.

Lemma sub_scan_length pat repl :
  (forall prev s n,
      match_here ua pat prev s = Some n -> (length repl <= n)%nat) ->
  forall s skip prev,
    (length (sub_scan ua pat repl skip prev s) + Nat.min skip (length s)
     <= length s)%nat.
Proof.
  intros Hm. induction s as [|c s IH]; intros skip prev.
  - rewrite sub_scan_nil. destruct skip; simpl; [|lia].
    destruct (match_here ua pat prev []) as [n|] eqn:E; simpl; [|lia].
    assert (H1 := Hm _ _ _ E). apply match_here_length in E. simpl in E. lia.
  - destruct skip as [|k].
    + rewrite sub_scan_try.
      destruct (match_here ua pat prev (c :: s)) as [[|n]|] eqn:E.
      * apply Hm in E. specialize (IH O (Some c)).
        rewrite length_app. simpl in *. lia.
      * assert (H1 := Hm _ _ _ E). apply match_here_length in E.
        specialize (IH n (Some c)). rewrite length_app. simpl in *. lia.
      * specialize (IH O (Some c)). simpl in *. lia.
    + rewrite sub_scan_skip. specialize (IH k (Some c)). simpl. lia.
Qed.

Lemma re_sub_length pat repl s :
  (forall prev s n,
      match_here ua pat prev s = Some n -> (length repl <= n)%nat) ->
  (length (re_sub ua pat repl s) <= length s)%nat.
Proof.
  intros Hm. unfold re_sub.
  assert (H := sub_scan_length pat repl Hm s O None). simpl in H. lia.
Qed.

(** Where the pattern matches, and every match is longer than the
    replacement, [re.sub] makes the string shorter. *)
Lemma sub_scan_shorter pat repl :
  (forall prev s n,
      match_here ua pat prev s = Some n -> (length repl < n)%nat) ->
  forall s prev,
    search ua pat prev s = true ->
    (length (sub_scan ua pat repl O prev s) < length s)%nat.
Proof.
  intros Hm.
  assert (Hle : forall prev s n,
             match_here ua pat prev s = Some n -> (length repl <= n)%nat).
  { intros prev s n E. apply Hm in E. lia. }
  induction s as [|c s IH]; intros prev H.
  - rewrite search_nil in H.
    destruct (match_here ua pat prev []) as [n|] eqn:E; [|discriminate].
    assert (H1 := Hm _ _ _ E). apply match_here_length in E. simpl in E. lia.
  - rewrite search_cons in H. rewrite sub_scan_try.
    destruct (match_here ua pat prev (c :: s)) as [[|n]|] eqn:E.
    + apply Hm in E. lia.
    + assert (H1 := Hm _ _ _ E). apply match_here_length in E.
      assert (H2 := sub_scan_length pat repl Hle s n (Some c)).
      rewrite length_app. simpl in *. lia.
    + specialize (IH (Some c) H). simpl. lia.
Qed.

Lemma nl_run_nonempty prev s n :
  match_here ua NL_RUN prev s = Some n -> (1 <= n)%nat.
Proof.
  intros H. apply match_here_sound in H. unfold NL_RUN, star, Chr in H.
  inversion H as [ | | | | | ? ? ? ? ? pre rest m _ _ _ H1 ]; subst.
  inversion H1; subst. lia.
Qed.

Lemma ws_run_nonempty prev s n :
  match_here ua WS_RUN prev s = Some n -> (1 <= n)%nat.
Proof.
  rewrite ws_run_match.
  destruct (2 <=? run is_space s)%nat eqn:E; [|discriminate].
  apply Nat.leb_le in E. intros H. injection H as <-. lia.
Qed.

Lemma flatten_length s : (length (flatten ua s) <= length s)%nat.
Proof.
  unfold flatten.
  etransitivity; [apply strip_length|].
  etransitivity; [apply re_sub_length, ws_run_nonempty|].
  apply re_sub_length, nl_run_nonempty.
Qed.

Lemma slice_length s : s <> [] -> (length (slice_1_m1 s) < length s)%nat.
Proof.
  destruct s as [|c s]; [congruence|]. intros _.
  unfold slice_1_m1. cbn [tl]. destruct s as [|d s]; [simpl; lia|].
  assert (H : (d :: s) <> []) by discriminate.
  apply exists_last in H as (l & a & E). rewrite E, removelast_last.
  cbn [length]. rewrite length_app. simpl. lia.
Qed.

Lemma unwrap_length s : (length (unwrap_backticks s) <= length s)%nat.
Proof.
  unfold unwrap_backticks.
  destruct (startswith [BACKTICK] s && endswith [BACKTICK] s) eqn:E;
    [|reflexivity].
  destruct s as [|c s]; [discriminate|].
  etransitivity; [apply strip_length|].
  apply Nat.lt_le_incl, slice_length. discriminate.
Qed.

Lemma fence_open_long prev s n :
  match_here ua (FENCE_OPEN ua) prev s = Some n -> (3 <= n)%nat.
Proof.
  intros H. apply match_here_sound in H. unfold FENCE_OPEN, Chr in H.
  inversion H as [ | | ? ? ? H1 | | | ]; subst.
  inversion H1 as [ | ? ? ? a ? ? Ea H2 | | | | ]; subst.
  inversion H2 as [ | ? ? ? b ? ? Eb H3 | | | | ]; subst.
  inversion H3 as [ | ? ? ? c ? ? Ec H4 | | | | ]; subst.
  lia.
Qed.

Lemma fence_close_long prev s n :
  match_here ua FENCE_CLOSE prev s = Some n -> (3 <= n)%nat.
Proof.
  intros H. apply match_here_sound in H. unfold FENCE_CLOSE, Chr in H.
  inversion H as [ | | | | | ? ? ? ? ? pre rest ? _ _ _ H1 ]; subst.
  inversion H1 as [ | ? ? ? a ? ? Ea H2 | | | | ]; subst.
  inversion H2 as [ | ? ? ? b ? ? Eb H3 | | | | ]; subst.
  inversion H3 as [ | ? ? ? c ? ? Ec H4 | | | | ]; subst.
  lia.
Qed.

Lemma fence_open_matches s :
  startswith FENCE s = true -> re_search ua (FENCE_OPEN ua) s = true.
Proof.
  intros H. apply startswith_split in H as [r ->].
  apply re_search_spec. exists [], (FENCE ++ r).
  destruct (match_here_complete ua (FENCE_OPEN ua) None (FENCE ++ r) 3) as [n Hn].
  - unfold FENCE_OPEN, FENCE, Chr. simpl.
    constructor. do 3 (constructor; [apply N.eqb_refl|]).
    apply (M_rep ua (word_or_dash ua) O None _ _ [] r O);
      [reflexivity | simpl; lia | exact I |].
    apply (M_rep ua (N.eqb NL) O (Some 1%nat) _ _ [] r O);
      [reflexivity | simpl; lia | simpl; lia | constructor].
  - eexists. split; [reflexivity|]. apply match_here_sound. exact Hn.
Qed.


Lemma fence_close_matches s :
  endswith FENCE s = true -> re_search ua FENCE_CLOSE s = true.
Proof.
  intros H. apply endswith_split in H as [r ->].
  apply re_search_spec. exists r, FENCE, 3%nat. split; [reflexivity|].
  unfold FENCE_CLOSE, FENCE, Chr.
  apply (M_rep ua (N.eqb NL) O (Some 1%nat) _ _ []
               [BACKTICK; BACKTICK; BACKTICK] 3);
    [reflexivity | simpl; lia | simpl; lia |].
  do 3 (constructor; [apply N.eqb_refl|]).
  constructor; [reflexivity | constructor].
Qed.

Lemma normalize_cons c s :
  normalize_one_line ua (c :: s) =
  flatten ua (unwrap_backticks
                (re_sub ua FENCE_CLOSE []
                   (re_sub ua (FENCE_OPEN ua) [] (strip (c :: s))))).
Proof. reflexivity. Qed.

(** A trimmed string that carries a fence or is wrapped in backticks gets
    shorter under [normalize_one_line]. *)
Lemma normalize_shrinks t :
  strip t = t ->
  startswith FENCE t = true \/ endswith FENCE t = true
  \/ startswith [BACKTICK] t && endswith [BACKTICK] t = true ->
  (length (normalize_one_line ua t) < length t)%nat.
Proof.
  intros Ht H.
  destruct (startswith FENCE t) eqn:Ho.
  - destruct t as [|c t]; [discriminate|].
    rewrite normalize_cons, Ht.
    eapply Nat.le_lt_trans; [apply flatten_length|].
    eapply Nat.le_lt_trans; [apply unwrap_length|].
    eapply Nat.le_lt_trans.
    { apply re_sub_length. intros prev s n E. simpl. lia. }
    apply sub_scan_shorter.
    + intros prev s n E. apply fence_open_long in E. simpl. lia.
    + now apply (fence_open_matches (c :: t)).
  - destruct (endswith FENCE t) eqn:Hc.
    + destruct t as [|c t]; [discriminate|].
      rewrite normalize_cons, Ht, re_sub_fence_open_id by assumption.
      eapply Nat.le_lt_trans; [apply flatten_length|].
      eapply Nat.le_lt_trans; [apply unwrap_length|].
      apply sub_scan_shorter.
      * intros prev s n E. apply fence_close_long in E. simpl. lia.
      * now apply (fence_close_matches (c :: t)).
    + destruct H as [H|[H|H]]; try discriminate.
      rewrite normalize_no_fence by assumption.
      unfold unwrap_backticks. rewrite H.
      eapply Nat.le_lt_trans; [apply flatten_length|].
      eapply Nat.le_lt_trans; [apply strip_length|].
      apply slice_length. intros ->. discriminate.
Qed.

End Normalizer.

(** ** Claims about the normalizer and the classifier *)

Lemma normalize_contains_newline (ua : N -> bool) (s : pystr) :
  contains NL (normalize_one_line ua s) = false.
Proof. apply contains_false, normalize_no_newline. Qed.

(** C3: for every table of word characters and every input string [s],
    the result of [normalize_one_line] contains no newline character. *)
Theorem C3_normalize_no_newline (ua : N -> bool) (s : pystr) :
  contains NL (normalize_one_line ua s) = false.
Proof. apply contains_false, normalize_no_newline. Qed.

(** C2: [is_dangerous cmd] is true if and only if at least one pattern of
    [DANGEROUS_PATTERNS] matches somewhere in [cmd]; the match is
    case-sensitive, since a literal character only matches itself. *)
Theorem C2_is_dangerous_iff (ua : N -> bool) (cmd : pystr) :
  is_dangerous ua cmd = true <->
  exists pat, In pat (DANGEROUS_PATTERNS ua) /\ matches_in ua pat cmd.
Proof.
  unfold is_dangerous. generalize (DANGEROUS_PATTERNS ua) as pats.
  induction pats as [|pat pats IH]; simpl.
  - split; [discriminate | intros (pat & [] & _)].
  - destruct (re_search ua pat cmd) eqn:E.
    + split; [intros _ | reflexivity].
      exists pat. split; [now left | now apply re_search_spec].
    + rewrite IH. split.
      * intros (q & Hq & Hm). exists q. split; [now right | assumption].
      * intros (q & [<- | Hq] & Hm).
        -- apply re_search_spec in Hm. congruence.
        -- now exists q.
Qed.

(** C4, counterexample: two layers of backticks take two passes. *)
Lemma C4_not_idempotent :
  (forall ua, normalize_one_line ua (py "``a``") = py "`a`") /\
  (forall ua, normalize_one_line ua (py "`a`") = py "a") /\
  (forall ua, normalize_one_line ua (normalize_one_line ua (py "``a``"))
              <> normalize_one_line ua (py "``a``")).
Proof.
  split; [|split]; intros ua; vm_compute; [reflexivity | reflexivity | discriminate].
Qed.

(** C4, amended: a second pass changes nothing exactly when the result of
    the first pass does not begin with a fence, does not end with a fence,
    and does not both begin and end with a backtick. *)
Theorem C4_normalize_idempotent_iff (ua : N -> bool) (s : pystr) :
  normalize_one_line ua (normalize_one_line ua s) = normalize_one_line ua s
  <->
  startswith FENCE (normalize_one_line ua s) = false
  /\ endswith FENCE (normalize_one_line ua s) = false
  /\ startswith [BACKTICK] (normalize_one_line ua s)
     && endswith [BACKTICK] (normalize_one_line ua s) = false.
Proof.
  split.
  - intros E.
    assert (Hlt := normalize_shrinks ua (normalize_one_line ua s)
                     (normalize_stripped ua s)).
    rewrite E in Hlt.
    destruct (startswith FENCE (normalize_one_line ua s));
      [exfalso; specialize (Hlt ltac:(auto)); lia|].
    destruct (endswith FENCE (normalize_one_line ua s));
      [exfalso; specialize (Hlt ltac:(auto)); lia|].
    destruct (startswith [BACKTICK] (normalize_one_line ua s)
              && endswith [BACKTICK] (normalize_one_line ua s));
      [exfalso; specialize (Hlt ltac:(auto)); lia|].
    auto.
  - intros (H1 & H2 & H3).
    rewrite normalize_no_fence; auto using normalize_stripped.
    unfold unwrap_backticks. rewrite H3.
    apply flatten_fixed;
      auto using normalize_stripped, normalize_no_newline, normalize_single_spaced.
Qed.

(** C9, counterexample: the backtick step does not check that the two
    backticks pair up. *)
Lemma C9_unpaired_backticks_stripped :
  (forall ua, normalize_one_line ua (py "`a` `b`") = py "a` `b") /\
  (forall ua, normalize_one_line ua (py "`") = []).
Proof. split; intros ua; vm_compute; reflexivity. Qed.


(** ** Claims about the session controller *)

Section Controller.

Variable ua : N -> bool.
Variable uni_lower : pystr -> pystr.
Variable dedent : pystr -> pystr.
Variable ollama : pystr -> pystr -> pystr + pystr.
Variable shell_run : pystr -> pystr -> pystr * pystr * Z.

Local Abbreviation normalize := (normalize_one_line ua).
Local Abbreviation suggestP := (suggest ua ollama).
Local Abbreviation refineP := (refine ua ollama).
Local Abbreviation mainP := (main ua uni_lower dedent ollama shell_run).
Local Abbreviation executeP := (run_execute ua uni_lower ollama shell_run).

Lemma is_nil_true {A} (l : list A) : is_nil l = true <-> l = [].
Proof. destruct l; simpl; split; congruence. Qed.

Lemma is_nil_false {A} (l : list A) : is_nil l = false <-> l <> [].
Proof. destruct l; simpl; split; congruence. Qed.

(** The multiline half of the check never fires on a normalized string. *)
Lemma empty_or_multiline s :
  is_nil (normalize s) || contains NL (normalize s) = is_nil (normalize s).
Proof. rewrite normalize_contains_newline. apply orb_false_r. Qed.

Lemma load_state_stored w : load_state w = (Ret (stored w), w).
Proof. unfold load_state, stored. now destruct (w_state w). Qed.

Lemma suggest_eval model task w :
  suggestP model task w =
  let w1 := add_prompt (model, SYSTEM_TEMPLATE task) w in
  match ollama model (SYSTEM_TEMPLATE task) with
  | inl raw =>
      if is_nil (normalize (strip raw))
      then (Exit 2, add_stderr (ERR_EMPTY_SUGGEST ++ [NL]) w1)
      else (Ret (normalize (strip raw)), w1)
  | inr e => (Exit 1, add_stderr ((py "[err] ollama failed: " ++ e) ++ [NL]) w1)
  end.
Proof.
  unfold suggest, call_ollama, bind, modify, eprint, sys_exit, ret.
  cbn zeta. destruct (ollama model (SYSTEM_TEMPLATE task)) as [raw|e];
    [|reflexivity].
  rewrite empty_or_multiline. now destruct (is_nil (normalize (strip raw))).
Qed.

Lemma refine_eval model task prev p w :
  refineP model task prev (JStr p) w =
  let prompt := REFINE_TEMPLATE (jtext task) (jtext prev) (why_text p) in
  let w1 := add_prompt (model, prompt) w in
  match ollama model prompt with
  | inl raw =>
      if is_nil (normalize (strip raw))
      then (Exit 2, add_stderr (ERR_EMPTY_REFINE ++ [NL]) w1)
      else (Ret (normalize (strip raw)), w1)
  | inr e => (Exit 1, add_stderr ((py "[err] ollama failed: " ++ e) ++ [NL]) w1)
  end.
Proof.
  unfold refine, call_ollama, bind, modify, eprint, sys_exit, ret.
  cbn zeta.
  destruct (ollama model _) as [raw|e]; [|reflexivity].
  rewrite empty_or_multiline. now destruct (is_nil (normalize (strip raw))).
Qed.


(** C10: in [suggest] and in [refine], the exit with status 2 happens
    exactly when the backend answered and the normalized answer is the
    empty string; a newline in the normalized answer is never the cause. *)
Theorem C10_exit_2_only_on_empty (model : pystr) (w : World) :
  (forall task,
      fst (suggestP model task w) = Exit 2 <->
      exists raw, ollama model (SYSTEM_TEMPLATE task) = inl raw
                  /\ normalize (strip raw) = []) /\
  (forall task prev problem,
      fst (refineP model task prev problem w) = Exit 2 <->
      exists p raw,
        problem = JStr p
        /\ ollama model (REFINE_TEMPLATE (jtext task) (jtext prev) (why_text p))
           = inl raw
        /\ normalize (strip raw) = []) /\
  (forall raw,
      is_nil (normalize raw) || contains NL (normalize raw)
      = is_nil (normalize raw)).
Proof.
  split; [|split; [|apply empty_or_multiline]].
  - intros task. rewrite suggest_eval. cbn zeta.
    destruct (ollama model (SYSTEM_TEMPLATE task)) as [raw|e].
    + destruct (is_nil (normalize (strip raw))) eqn:E; simpl.
      * apply is_nil_true in E. split; [eauto | reflexivity].
      * apply is_nil_false in E. split; [discriminate|].
        intros (raw' & H & H'). congruence.
    + simpl. split; [discriminate | intros (raw & H & _); discriminate].
  - intros task prev [p|z].
    + rewrite refine_eval. cbn zeta.
      destruct (ollama model _) as [raw|e] eqn:O.
      * destruct (is_nil (normalize (strip raw))) eqn:E; simpl.
        -- apply is_nil_true in E. split; [eauto | reflexivity].
        -- apply is_nil_false in E. split; [discriminate|].
           intros (p' & raw' & H & H' & H''). congruence.
      * simpl. split; [discriminate|].
        intros (p' & raw & H & H' & _). congruence.
    + simpl. split; [discriminate|]. intros (p & raw & H & _). discriminate.
Qed.

Ltac unfold_main :=
  unfold main, main_refine, main_suggest, main_run, main_explain;
  unfold bind at 1; rewrite load_state_stored.

(** C7: refine mode with the reuse-last flag, when the stored state lacks
    a task or a command, prints the error, exits with status 1, and leaves
    the state file and the history log as they were. *)
Theorem C7_use_last_without_state (args : Args) (w : World) :
  a_mode args = Refine -> a_use_last args = true ->
  truthy (stored w !! "task"%string) && truthy (stored w !! "cmd"%string)
    = false ->
  mainP args w = (Exit 1, add_stderr (ERR_NO_STATE ++ [NL]) w)
  /\ w_state (snd (mainP args w)) = w_state w
  /\ w_hist (snd (mainP args w)) = w_hist w.
Proof.
  intros Hm Hu Hs.
  assert (E : mainP args w = (Exit 1, add_stderr (ERR_NO_STATE ++ [NL]) w)).
  { unfold_main. rewrite Hm, Hu.
    rewrite <- negb_andb, Hs. reflexivity. }
  rewrite E. auto.
Qed.


(** The one prompt refine mode sends when it is given a task. *)
Lemma refine_with_task_prompts (args : Args) (w : World) :
  a_mode args = Refine -> a_use_last args = false -> a_task args <> [] ->
  w_prompts (snd (mainP args w)) =
  w_prompts w ++
  [(a_model args,
    REFINE_TEMPLATE (join [SPACE] (a_task args))
      (jtext (default (JStr []) (stored w !! "cmd"%string)))
      (why_text (a_why args)))].
Proof.
  intros Hm Hu Ht. apply is_nil_false in Ht.
  unfold_main. rewrite Hm, Hu, Ht.
  unfold bind, ret, eprint, modify.
  destruct (truthy (Some (default (JStr []) (stored w !! "cmd"%string))));
    rewrite refine_eval; cbn zeta;
    destruct (ollama _ _) as [raw|e]; try reflexivity;
    destruct (is_nil (normalize (strip raw))); try reflexivity;
    unfold save_history, save_state, print, modify;
    destruct (a_no_history args); try reflexivity;
    cbn [w_hist_ok add_prompt add_stderr];
    destruct (w_hist_ok w); reflexivity.
Qed.

Lemma truthy_of_default (v : option jval) :
  truthy (Some (default (JStr []) v)) = truthy v.
Proof. now destruct v. Qed.

(** What refine mode writes to standard error when it is given a task:
    the warning when no usable command is stored, then the error message
    of the refinement, if any. *)
Lemma refine_with_task_stderr (args : Args) (w : World) :
  a_mode args = Refine -> a_use_last args = false -> a_task args <> [] ->
  w_stderr (snd (mainP args w)) =
  w_stderr w
  ++ (if truthy (stored w !! "cmd"%string) then []
      else [WARN_NO_PREV ++ [NL]])
  ++ match ollama (a_model args)
             (REFINE_TEMPLATE (join [SPACE] (a_task args))
                (jtext (default (JStr []) (stored w !! "cmd"%string)))
                (why_text (a_why args))) with
     | inl raw =>
         if is_nil (normalize (strip raw))
         then [ERR_EMPTY_REFINE ++ [NL]] else []
     | inr e => [(py "[err] ollama failed: " ++ e) ++ [NL]]
     end.
Proof.
  intros Hm Hu Ht. apply is_nil_false in Ht.
  unfold_main. rewrite Hm, Hu, Ht.
  unfold bind, ret, eprint, modify. rewrite truthy_of_default.
  destruct (truthy (stored w !! "cmd"%string));
    rewrite refine_eval; cbn zeta;
    destruct (ollama _ _) as [raw|e];
    try (cbn [snd w_stderr add_stderr add_prompt app];
         rewrite <- ?app_assoc, ?app_nil_r; reflexivity);
    destruct (is_nil (normalize (strip raw)));
    try (cbn [snd w_stderr add_stderr add_prompt app];
         rewrite <- ?app_assoc, ?app_nil_r; reflexivity);
    unfold save_history, save_state, print, modify;
    destruct (a_no_history args);
    try (cbn [snd w_stderr add_stderr add_prompt add_stdout set_state app];
         rewrite <- ?app_assoc, ?app_nil_r; reflexivity);
    cbn [w_hist_ok add_prompt add_stderr];
    destruct (w_hist_ok w);
    cbn [snd w_stderr add_stderr add_prompt add_stdout set_state add_hist app];
    rewrite <- ?app_assoc, ?app_nil_r; reflexivity.
Qed.

(** C5, amended: refine mode without the reuse-last flag fails with the
    usage error and status 1 exactly when no task text is given on the
    command line, whatever the stored state holds.  Given a task it sends
    the refine prompt, with the stored command as the previous command,
    the empty string when none is stored; before that it writes the
    warning to standard error exactly when the state holds no command or
    an empty one, and the only other text it writes there is the error
    message of a failed refinement. *)
Theorem C5_refine_fails_iff_no_task (args : Args) (w : World) :
  a_mode args = Refine -> a_use_last args = false ->
  (mainP args w = (Exit 1, add_stderr (ERR_NO_TASK_REFINE ++ [NL]) w)
   <-> a_task args = [])
  /\ (a_task args <> [] ->
      w_prompts (snd (mainP args w)) =
      w_prompts w ++
      [(a_model args,
        REFINE_TEMPLATE (join [SPACE] (a_task args))
          (jtext (default (JStr []) (stored w !! "cmd"%string)))
          (why_text (a_why args)))])
  /\ (a_task args <> [] ->
      w_stderr (snd (mainP args w)) =
      w_stderr w
      ++ (if truthy (stored w !! "cmd"%string) then []
          else [WARN_NO_PREV ++ [NL]])
      ++ match ollama (a_model args)
                 (REFINE_TEMPLATE (join [SPACE] (a_task args))
                    (jtext (default (JStr []) (stored w !! "cmd"%string)))
                    (why_text (a_why args))) with
         | inl raw =>
             if is_nil (normalize (strip raw))
             then [ERR_EMPTY_REFINE ++ [NL]] else []
         | inr e => [(py "[err] ollama failed: " ++ e) ++ [NL]]
         end).
Proof.
  intros Hm Hu.
  split; [|split;
           [now apply refine_with_task_prompts
           |now apply refine_with_task_stderr]].
  split.
  - intros E. destruct (a_task args) as [|t ts] eqn:Ht; [reflexivity|].
    exfalso.
    assert (Hp := refine_with_task_prompts args w Hm Hu).
    rewrite Ht in Hp. specialize (Hp ltac:(discriminate)).
    rewrite E in Hp. simpl in Hp.
    apply (f_equal (@length _)) in Hp. rewrite length_app in Hp.
    simpl in Hp. lia.
  - intros Ht. unfold_main. rewrite Hm, Hu, Ht. reflexivity.
Qed.


Ltac wsimpl :=
  cbn [fst snd w_state w_hist w_hist_ok w_stdin w_stdout w_stderr w_prompts
       w_ran w_now set_state add_hist set_stdin add_stdout add_stderr
       add_prompt add_ran set_hist_ok] in *.

(** Case analysis on an innermost scrutinee of the goal. *)
Ltac split_step :=
  match goal with
  | |- context [match ?x with _ => _ end] =>
      lazymatch x with
      | context [match _ with _ => _ end] => fail
      | _ => destruct x eqn:?
      end
  end.

Ltac split_cases := repeat (wsimpl; split_step).

Ltac unfold_ops :=
  unfold run_execute, refine, suggest, call_ollama, print, print_noend,
    eprint, ewrite, save_history, save_state, input, sys_exit, raise, modify,
    ret, bind.

(** Once run mode reaches the execution, the command is handed to the
    shell. *)
Lemma execute_runs (args : Args) (task cmd : pystr) (w : World) :
  exists l,
    w_ran (snd (executeP args task cmd w)) = w_ran w ++ (a_shell args, cmd) :: l.
Proof.
  unfold_ops. split_cases; wsimpl;
    eexists; rewrite <- ?app_assoc; reflexivity.
Qed.


(** Run mode up to the confirmation prompt, when the backend answers a
    usable command. *)
Lemma run_until_gate (args : Args) (w : World) (raw : pystr) :
  a_mode args = Run -> a_task args <> [] ->
  ollama (a_model args) (SYSTEM_TEMPLATE (join [SPACE] (a_task args))) = inl raw ->
  normalize (strip raw) <> [] ->
  let task := join [SPACE] (a_task args) in
  let cmd := normalize (strip raw) in
  let w1 := add_stdout ((py "Suggested:" ++ [NL] ++ py "  " ++ cmd ++ [NL]) ++ [NL])
              (add_prompt (a_model args, SYSTEM_TEMPLATE task) w) in
  mainP args w =
  bind (if is_dangerous ua cmd then
          eprint WARN_DANGEROUS ;;;
          line <- input (py "Type 'YES' to run anyway: ") ;;
          if negb (str_eqb (strip line) (py "YES")) then
            print (py "Aborted.") ;;;
            save_state (JStr task) cmd None None ;;;
            sys_exit 3
          else ret tt
        else
          line <- input (py "Run this command? [y/N]: ") ;;
          if negb (is_yes (strip (lower uni_lower line))) then
            print (py "Aborted.") ;;;
            save_state (JStr task) cmd None None ;;;
            sys_exit 0
          else ret tt)
       (fun _ => executeP args task cmd) w1.
Proof.
  intros Hm Ht Ho Hc task cmd w1. subst task cmd w1.
  apply is_nil_false in Ht, Hc.
  unfold_main. rewrite Hm, Ht.
  unfold bind at 1. rewrite suggest_eval. cbn zeta.
  rewrite Ho, Hc. reflexivity.
Qed.

(** C1, amended: in run mode with a command classified dangerous, the
    confirmation line is trimmed of surrounding white space and then
    compared with "YES", case-sensitively.  When the trimmed line differs
    from "YES", the invocation exits with status 3, hands nothing to the
    shell, and stores the task and the rejected command; when it equals
    "YES", the command is handed to the shell. *)
Theorem C1_dangerous_gate (args : Args) (w : World)
    (raw line : pystr) (rest : list pystr) :
  a_mode args = Run -> a_task args <> [] ->
  ollama (a_model args) (SYSTEM_TEMPLATE (join [SPACE] (a_task args))) = inl raw ->
  normalize (strip raw) <> [] ->
  is_dangerous ua (normalize (strip raw)) = true ->
  w_stdin w = line :: rest ->
  (strip line <> py "YES" ->
   fst (mainP args w) = Exit 3
   /\ w_ran (snd (mainP args w)) = w_ran w
   /\ w_state (snd (mainP args w)) =
      Stored (state_record (JStr (join [SPACE] (a_task args)))
                           (normalize (strip raw)) None None (w_now w)))
  /\ (strip line = py "YES" ->
      exists l,
        w_ran (snd (mainP args w)) =
        w_ran w ++ (a_shell args, normalize (strip raw)) :: l).
Proof.
  intros Hm Ht Ho Hc Hd Hin.
  rewrite (run_until_gate args w raw Hm Ht Ho Hc). cbn zeta. rewrite Hd.
  split; intros Hy.
  - apply str_eqb_neq in Hy.
    unfold bind, eprint, input, print, save_state, sys_exit, modify.
    wsimpl. rewrite Hin, Hy. wsimpl. auto.
  - apply str_eqb_eq in Hy.
    unfold bind at 1. unfold bind, eprint, input, ret, modify.
    wsimpl. rewrite Hin, Hy. cbn [negb].
    match goal with |- context [executeP args ?t ?c ?w'] =>
      destruct (execute_runs args t c w') as [l Hl] end.
    exists l. exact Hl.
Qed.

(** C6: in run mode, when the confirmed command returns a nonzero code
    and the refine offer is declined, the captured standard error is
    written to standard error, the stored state holds the trimmed error
    text and the return code, and the invocation exits with that code. *)
Theorem C6_failed_command_declined (args : Args) (w : World)
    (raw l1 l2 out err : pystr) (rest : list pystr) (rc : Z) :
  a_mode args = Run -> a_task args <> [] ->
  ollama (a_model args) (SYSTEM_TEMPLATE (join [SPACE] (a_task args))) = inl raw ->
  normalize (strip raw) <> [] ->
  w_stdin w = l1 :: l2 :: rest ->
  (if is_dangerous ua (normalize (strip raw))
   then str_eqb (strip l1) (py "YES")
   else is_yes (strip (lower uni_lower l1))) = true ->
  shell_run (a_shell args) (normalize (strip raw)) = (out, err, rc) ->
  rc <> 0%Z ->
  is_yes (strip (lower uni_lower l2)) = false ->
  fst (mainP args w) = Exit rc
  /\ In err (w_stderr (snd (mainP args w)))
  /\ (exists d,
         w_state (snd (mainP args w)) = Stored d
         /\ d !! "last_error"%string = Some (JStr (strip err))
         /\ d !! "exit_code"%string = Some (JInt rc)
         /\ d !! "task"%string = Some (JStr (join [SPACE] (a_task args)))
         /\ d !! "cmd"%string = Some (JStr (normalize (strip raw)))).
Proof.
  intros Hm Ht Ho Hc Hin Hgate Hsh Hrc Hno.
  rewrite (run_until_gate args w raw Hm Ht Ho Hc). cbn zeta.
  apply Z.eqb_neq in Hrc.
  destruct (is_dangerous ua (normalize (strip raw)));
    unfold_ops; wsimpl; rewrite Hin, Hgate; cbn [negb]; wsimpl;
    rewrite Hsh, Hrc; wsimpl; rewrite Hno; wsimpl.
  - split; [reflexivity|]. split.
    + apply in_or_app. left. apply in_or_app. right. now left.
    + eexists. split; [reflexivity|]. unfold state_record.
      repeat split; now simplify_map_eq.
  - split; [reflexivity|]. split.
    + apply in_or_app. left. apply in_or_app. right. now left.
    + eexists. split; [reflexivity|]. unfold state_record.
      repeat split; now simplify_map_eq.
Qed.


(** C8, amended: a failing append to the history log is fatal.  Whenever
    an invocation without the no-history flag would append to the log, and
    the log cannot be written, the invocation ends with the uncaught
    [OSError]; in suggest and refine mode this happens before the state is
    stored and before the command is printed. *)
Theorem C8_history_failure_is_fatal (args : Args) (w : World) :
  a_no_history args = false -> w_hist_ok w = false ->
  w_hist (snd (mainP args (set_hist_ok true w))) <> w_hist w ->
  fst (mainP args w) = Raise OSError
  /\ w_hist (snd (mainP args w)) = w_hist w
  /\ (a_mode args <> Run ->
      w_state (snd (mainP args w)) = w_state w
      /\ w_stdout (snd (mainP args w)) = w_stdout w).
Proof.
  intros Hn Hk. destruct w as [st hist ok sin sout serr prompts ran now].
  cbn in Hk. subst ok.
  unfold main, main_refine, main_suggest, main_run, main_explain, explain,
    load_state.
  unfold_ops. rewrite Hn. wsimpl.
  destruct (a_mode args) eqn:Hm; split_cases; wsimpl; intros Hh;
    try (exfalso; apply Hh; reflexivity);
    repeat split; try reflexivity; try congruence.
Qed.

End Controller.

(** ** Scenarios *)

(** C5, counterexample: with a stored task and command but no task on the
    command line, refine mode without the reuse-last flag still fails with status 1, and
    sends no prompt: the stored state is no fallback for the task. *)
Lemma C5_stored_fallback_is_not_used :
  truthy (stored (world0 stored_ls true []) !! "task"%string) = true
  /\ truthy (stored (world0 stored_ls true []) !! "cmd"%string) = true
  /\ (forall ua ul dd ol sh,
         fst (main ua ul dd ol sh (args0 Refine [] false)
                   (world0 stored_ls true []))
         = Exit 1)
  /\ (forall ua ul dd ol sh,
         w_prompts (snd (main ua ul dd ol sh (args0 Refine [] false)
                              (world0 stored_ls true [])))
         = []).
Proof. repeat split; intros; vm_compute; reflexivity. Qed.

(** C5, with a task and no stored state: the prompt has an empty previous
    command and the warning is the only text on standard error. *)
Lemma C5_witness :
  w_prompts
    (snd (main t0 (fun s => s) (fun s => s) (backend_says (py "ls -la"))
               (shell_gives [] [] 0%Z)
               (args0 Refine [py "list"; py "files"] false)
               (world0 Absent true [])))
  = [(py "mistral", REFINE_TEMPLATE (py "list files") [] (py "no details"))]
  /\ w_stderr
       (snd (main t0 (fun s => s) (fun s => s) (backend_says (py "ls -la"))
                  (shell_gives [] [] 0%Z)
                  (args0 Refine [py "list"; py "files"] false)
                  (world0 Absent true [])))
     = [WARN_NO_PREV ++ [NL]].
Proof.
  split.
  - apply (proj1 (proj2 (C5_refine_fails_iff_no_task t0 (fun s => s)
                    (fun s => s) (backend_says (py "ls -la"))
                    (shell_gives [] [] 0%Z)
                    (args0 Refine [py "list"; py "files"] false)
                    (world0 Absent true []) eq_refl eq_refl))).
    discriminate.
  - apply (proj2 (proj2 (C5_refine_fails_iff_no_task t0 (fun s => s)
                    (fun s => s) (backend_says (py "ls -la"))
                    (shell_gives [] [] 0%Z)
                    (args0 Refine [py "list"; py "files"] false)
                    (world0 Absent true []) eq_refl eq_refl))).
    discriminate.
Defined.

(** C7 and scenario D of the specification: no state file. *)
Lemma C7_witness :
  main t0 (fun s => s) (fun s => s) (backend_says (py "ls -la"))
       (shell_gives [] [] 0%Z) (args0 Refine [] true) (world0 Absent true [])
  = (Exit 1, add_stderr (ERR_NO_STATE ++ [NL]) (world0 Absent true [])).
Proof.
  apply (C7_use_last_without_state t0 (fun s => s) (fun s => s)
           (backend_says (py "ls -la")) (shell_gives [] [] 0%Z)
           (args0 Refine [] true) (world0 Absent true []));
    reflexivity.
Defined.

(** C1, counterexample: a confirmation line that is not the text "YES" is
    accepted when it trims to it: the dangerous command is run. *)
Lemma C1_padded_yes_is_accepted :
  py " YES" <> py "YES"
  /\ (forall ua, is_dangerous ua (py "rm -rf /tmp/x") = true)
  /\ (forall ua ul dd,
         fst (main ua ul dd (backend_says (py "rm -rf /tmp/x"))
                   (shell_gives [] [] 0%Z)
                   (args0 Run [py "delete"; py "everything"] false)
                   (world0 Absent true [py " YES"]))
         = Exit 0)
  /\ (forall ua ul dd,
         w_ran (snd (main ua ul dd (backend_says (py "rm -rf /tmp/x"))
                          (shell_gives [] [] 0%Z)
                          (args0 Run [py "delete"; py "everything"] false)
                          (world0 Absent true [py " YES"])))
         = [(py "/bin/bash", py "rm -rf /tmp/x")]).
Proof.
  split; [discriminate|]. repeat split; intros; vm_compute; reflexivity.
Qed.

(** C1, with the lowercase answer of scenario B. *)
Lemma C1_witness :
  fst (main t0 (fun s => s) (fun s => s) (backend_says (py "rm -rf /tmp/x"))
            (shell_gives [] [] 0%Z)
            (args0 Run [py "delete"; py "everything"] false)
            (world0 Absent true [py "yes"]))
  = Exit 3
  /\ w_ran (snd (main t0 (fun s => s) (fun s => s)
                      (backend_says (py "rm -rf /tmp/x"))
                      (shell_gives [] [] 0%Z)
                      (args0 Run [py "delete"; py "everything"] false)
                      (world0 Absent true [py "yes"])))
     = []
  /\ w_state (snd (main t0 (fun s => s) (fun s => s)
                        (backend_says (py "rm -rf /tmp/x"))
                        (shell_gives [] [] 0%Z)
                        (args0 Run [py "delete"; py "everything"] false)
                        (world0 Absent true [py "yes"])))
     = Stored (state_record (JStr (py "delete everything"))
                            (py "rm -rf /tmp/x") None None
                            (py "2024-05-01T12:00:00")).
Proof.
  refine (proj1 (C1_dangerous_gate t0 (fun s => s) (fun s => s)
                  (backend_says (py "rm -rf /tmp/x")) (shell_gives [] [] 0%Z)
                  (args0 Run [py "delete"; py "everything"] false)
                  (world0 Absent true [py "yes"])
                  (py "rm -rf /tmp/x") (py "yes") []
                  eq_refl _ eq_refl _ _ eq_refl) _).
  - discriminate.
  - vm_compute. discriminate.
  - vm_compute. reflexivity.
  - vm_compute. discriminate.
Defined.

(** C6 and scenario C of the specification. *)
Lemma C6_witness :
  fst (main t0 (fun s => s) (fun s => s) (backend_says (py "cat notes.txt"))
            (shell_gives [] (py "file not found") 1%Z)
            (args0 Run [py "show"; py "notes"] false)
            (world0 Absent true [py "y"; py "n"]))
  = Exit 1
  /\ In (py "file not found")
        (w_stderr (snd (main t0 (fun s => s) (fun s => s)
                             (backend_says (py "cat notes.txt"))
                             (shell_gives [] (py "file not found") 1%Z)
                             (args0 Run [py "show"; py "notes"] false)
                             (world0 Absent true [py "y"; py "n"]))))
  /\ (exists d,
         w_state (snd (main t0 (fun s => s) (fun s => s)
                            (backend_says (py "cat notes.txt"))
                            (shell_gives [] (py "file not found") 1%Z)
                            (args0 Run [py "show"; py "notes"] false)
                            (world0 Absent true [py "y"; py "n"])))
         = Stored d
         /\ d !! "last_error"%string = Some (JStr (py "file not found"))
         /\ d !! "exit_code"%string = Some (JInt 1)
         /\ d !! "task"%string = Some (JStr (py "show notes"))
         /\ d !! "cmd"%string = Some (JStr (py "cat notes.txt"))).
Proof.
  refine (C6_failed_command_declined t0 (fun s => s) (fun s => s)
            (backend_says (py "cat notes.txt"))
            (shell_gives [] (py "file not found") 1%Z)
            (args0 Run [py "show"; py "notes"] false)
            (world0 Absent true [py "y"; py "n"])
            (py "cat notes.txt") (py "y") (py "n") [] (py "file not found") []
            1%Z eq_refl _ eq_refl _ eq_refl _ eq_refl _ _).
  - discriminate.
  - vm_compute. discriminate.
  - vm_compute. reflexivity.
  - discriminate.
  - vm_compute. reflexivity.
Defined.

(** C8, counterexample: with a history log that cannot be written, an
    otherwise successful suggest invocation ends with the exception: nothing is stored and the
    command is not printed. *)
Lemma C8_history_failure_aborts_suggest :
  (forall ua ul dd sh,
      fst (main ua ul dd (backend_says (py "ls -la")) sh
                (args0 Suggest [py "list"; py "files"] false)
                (world0 Absent false []))
      = Raise OSError)
  /\ (forall ua ul dd sh,
         w_state (snd (main ua ul dd (backend_says (py "ls -la")) sh
                            (args0 Suggest [py "list"; py "files"] false)
                            (world0 Absent false [])))
         = Absent)
  /\ (forall ua ul dd sh,
         w_stdout (snd (main ua ul dd (backend_says (py "ls -la")) sh
                             (args0 Suggest [py "list"; py "files"] false)
                             (world0 Absent false [])))
         = [])
  /\ (forall ua ul dd sh,
         fst (main ua ul dd (backend_says (py "ls -la")) sh
                   (args0 Suggest [py "list"; py "files"] false)
                   (world0 Absent true []))
         = Ret tt).
Proof. repeat split; intros; vm_compute; reflexivity. Qed.

(** C8, in suggest mode. *)
Lemma C8_witness :
  fst (main t0 (fun s => s) (fun s => s) (backend_says (py "ls -la"))
            (shell_gives [] [] 0%Z)
            (args0 Suggest [py "list"; py "files"] false)
            (world0 Absent false []))
  = Raise OSError.
Proof.
  refine (proj1 (C8_history_failure_is_fatal t0 (fun s => s) (fun s => s)
                   (backend_says (py "ls -la")) (shell_gives [] [] 0%Z)
                   (args0 Suggest [py "list"; py "files"] false)
                   (world0 Absent false []) eq_refl eq_refl _)).
  vm_compute. discriminate.
Defined.

(** The same in run mode, after the command ran successfully, and in
    refine mode. *)
Lemma history_failure_in_run_and_refine :
  (forall ua ul dd,
      fst (main ua ul dd (backend_says (py "ls -la")) (shell_gives [] [] 0%Z)
                (args0 Run [py "list"; py "files"] false)
                (world0 Absent false [py "y"]))
      = Raise OSError)
  /\ (forall ua ul dd,
         w_ran (snd (main ua ul dd (backend_says (py "ls -la"))
                          (shell_gives [] [] 0%Z)
                          (args0 Run [py "list"; py "files"] false)
                          (world0 Absent false [py "y"])))
         = [(py "/bin/bash", py "ls -la")])
  /\ (forall ua ul dd sh,
         fst (main ua ul dd (backend_says (py "ls -la")) sh
                   (args0 Refine [] true) (world0 stored_ls false []))
         = Raise OSError)
  /\ (forall ua ul dd sh,
         w_state (snd (main ua ul dd (backend_says (py "ls -la")) sh
                            (args0 Refine [] true) (world0 stored_ls false [])))
         = stored_ls).
Proof. repeat split; intros; vm_compute; reflexivity. Qed.

(** The search is case-sensitive and looks for the signature anywhere in
    the command. *)
Lemma classifier_examples :
  (forall ua, is_dangerous ua (py "sudo shutdown -h now") = true)
  /\ (forall ua, is_dangerous ua (py "sudo Shutdown -h now") = false)
  /\ (forall ua, is_dangerous ua (py "chmod 000 secret") = true)
  /\ (forall ua, is_dangerous ua (py "ls -la") = false).
Proof. repeat split; intros; vm_compute; reflexivity. Qed.

(** Scenario A of the specification: a fenced answer. *)
Lemma scenario_A :
  forall ua,
    normalize_one_line ua (FENCE ++ py "sh" ++ [NL] ++ py "ls -la" ++ [NL] ++ FENCE)
    = py "ls -la".
Proof. intros ua. vm_compute. reflexivity. Qed.

(** The command of the specification's scenario B is not classified
    dangerous: [\b] does not match between "/" and the end of the string. *)
Lemma root_deletion_not_flagged :
  (forall ua, is_dangerous ua (py "rm -rf /") = false)
  /\ (forall ua, is_dangerous ua (py "rm -rf /home") = true).
Proof. split; intros; vm_compute; reflexivity. Qed.

(** ** Further properties of the normalizer *)

Section NormalizerShape.

Variable ua : N -> bool.

Lemma lstrip_fixed_head s : lstrip s = s -> space_head s = false.
Proof.
  destruct s as [|c s]; [reflexivity|]. intros H.
  apply lstrip_head in H. exact H.
Qed.

Lemma lstrip_strip s : lstrip (strip s) = strip s.
Proof. unfold strip. apply lstrip_fixed_rstrip, lstrip_idem. Qed.

Lemma rstrip_strip s : rstrip (strip s) = strip s.
Proof. unfold strip. apply rstrip_idem. Qed.

Lemma rstrip_fixed_last s : rstrip s = s -> space_head (rev s) = false.
Proof.
  unfold rstrip. intros H. apply lstrip_fixed_head.
  rewrite <- H at 2. now rewrite rev_involutive.
Qed.

(** X1: the result of [normalize_one_line] neither begins nor ends with a
    white-space character and has no two adjacent white-space characters. *)
Theorem X1_normalize_shape (s : pystr) :
  space_head (normalize_one_line ua s) = false
  /\ space_head (rev (normalize_one_line ua s)) = false
  /\ (forall pre a b post,
         normalize_one_line ua s = pre ++ a :: b :: post ->
         is_space a && is_space b = false).
Proof.
  assert (H := normalize_stripped ua s).
  split; [|split].
  - apply lstrip_fixed_head. rewrite <- H. apply lstrip_strip.
  - apply rstrip_fixed_last. rewrite <- H. apply rstrip_strip.
  - apply normalize_single_spaced.
Qed.

Lemma re_sub_empty_length pat s :
  (length (re_sub ua pat [] s) <= length s)%nat.
Proof. apply re_sub_length. intros. simpl. lia. Qed.

(** X2: [normalize_one_line] never returns a string longer than its
    input. *)
Theorem X2_normalize_length (s : pystr) :
  (length (normalize_one_line ua s) <= length s)%nat.
Proof.
  destruct s as [|c s]; [reflexivity|]. rewrite normalize_cons.
  etransitivity; [apply flatten_length|].
  etransitivity; [apply unwrap_length|].
  etransitivity; [apply re_sub_empty_length|].
  etransitivity; [apply re_sub_empty_length|].
  apply strip_length.
Qed.

Lemma normalize_fixed_iff (s : pystr) :
  normalize_one_line ua s = s <->
  strip s = s /\ ~ In NL s /\ single_spaced s
  /\ startswith FENCE s = false /\ endswith FENCE s = false
  /\ startswith [BACKTICK] s && endswith [BACKTICK] s = false.
Proof.
  split.
  - intros E.
    assert (Hs : strip s = s) by (rewrite <- E; apply normalize_stripped).
    assert (Hlt := normalize_shrinks ua s Hs). rewrite E in Hlt.
    split; [exact Hs|].
    split; [rewrite <- E; apply normalize_no_newline|].
    split; [rewrite <- E; apply normalize_single_spaced|].
    destruct (startswith FENCE s);
      [exfalso; specialize (Hlt ltac:(auto)); lia|].
    destruct (endswith FENCE s);
      [exfalso; specialize (Hlt ltac:(auto)); lia|].
    destruct (startswith [BACKTICK] s && endswith [BACKTICK] s);
      [exfalso; specialize (Hlt ltac:(auto)); lia|].
    auto.
  - intros (H1 & H2 & H3 & H4 & H5 & H6).
    rewrite normalize_no_fence by assumption.
    unfold unwrap_backticks. rewrite H6. now apply flatten_fixed.
Qed.

(** X3: the strings [normalize_one_line] returns unchanged are exactly the
    trimmed strings without a newline and without two adjacent white-space
    characters that do not begin with a fence, do not end with a fence, and
    do not both begin and end with a backtick. *)
Theorem X3_normalize_fixed_points (s : pystr) :
  normalize_one_line ua s = s <->
  strip s = s /\ ~ In NL s /\ single_spaced s
  /\ startswith FENCE s = false /\ endswith FENCE s = false
  /\ startswith [BACKTICK] s && endswith [BACKTICK] s = false.
Proof. apply normalize_fixed_iff. Qed.

Lemma normalize_nil_of_strip_nil s : strip s = [] -> normalize_one_line ua s = [].
Proof.
  intros H. destruct s as [|c s]; [reflexivity|].
  rewrite normalize_cons, H. reflexivity.
Qed.

Lemma normalize_of_strip s :
  normalize_one_line ua (strip s) = normalize_one_line ua s.
Proof.
  destruct (strip s) as [|c t] eqn:E.
  - symmetry. now apply normalize_nil_of_strip_nil.
  - destruct s as [|d s]; [discriminate|].
    rewrite !normalize_cons. rewrite <- E. now rewrite strip_idem.
Qed.

(** X4: [normalize_one_line] ignores leading and trailing white space:
    trimming the input first does not change the result. *)
Theorem X4_normalize_strip (s : pystr) :
  normalize_one_line ua (strip s) = normalize_one_line ua s.
Proof. apply normalize_of_strip. Qed.

Lemma strip_all_space s : forallb is_space s = true -> strip s = [].
Proof.
  intros H. unfold strip.
  assert (L : lstrip s = []).
  { induction s as [|c s IH]; [reflexivity|]. simpl in *.
    apply andb_prop in H as [Hc Hs]. rewrite Hc. auto. }
  now rewrite L.
Qed.

(** X5: an input made of white space only normalizes to the empty string,
    which the callers reject. *)
Theorem X5_normalize_blank (s : pystr) :
  forallb is_space s = true -> normalize_one_line ua s = [].
Proof. intros H. now apply normalize_nil_of_strip_nil, strip_all_space. Qed.

Lemma startswith_In p c s : startswith (c :: p) s = true -> In c s.
Proof.
  destruct s as [|x s]; [discriminate|]. simpl. intros H.
  apply andb_prop in H as [E _]. apply N.eqb_eq in E. now left.
Qed.

Lemma endswith_In p c s : endswith (p ++ [c]) s = true -> In c s.
Proof.
  intros H. apply endswith_split in H as [r ->].
  apply in_or_app. right. apply in_or_app. right. now left.
Qed.

(** X6: on an input without a backtick, normalization only changes white
    space: the characters that are not white space are kept, in order. *)
Theorem X6_normalize_keeps_text (s : pystr) :
  ~ In BACKTICK s ->
  nonspace (normalize_one_line ua s) = nonspace s.
Proof.
  intros Hb. rewrite <- normalize_of_strip.
  assert (Hb' : ~ In BACKTICK (strip s)) by (intros H; now apply strip_In in H).
  rewrite normalize_no_fence.
  - unfold unwrap_backticks.
    destruct (startswith [BACKTICK] (strip s)) eqn:E.
    + apply startswith_In in E. contradiction.
    + cbn [andb]. now rewrite flatten_nonspace, nonspace_strip.
  - apply strip_idem.
  - destruct (startswith FENCE (strip s)) eqn:E; [|reflexivity].
    apply startswith_In in E. contradiction.
  - destruct (endswith FENCE (strip s)) eqn:E; [|reflexivity].
    apply (endswith_In [BACKTICK; BACKTICK]) in E. contradiction.
Qed.

(** *** Fenced answers *)

Lemma rep_star_run p k s :
  forall prev m,
    k (last_opt prev (firstn (run p s) s)) (skipn (run p s) s) = Some m ->
    rep p k O None prev s = Some (run p s + m)%nat.
Proof.
  induction s as [|c s IH]; intros prev m H; simpl in *.
  - exact H.
  - destruct (p c) eqn:E; simpl in *.
    + rewrite (IH (Some c) m H). reflexivity.
    + exact H.
Qed.

Lemma rep_exhausted p k lo prev s :
  rep p k lo (Some O) prev s = match lo with O => k prev s | S _ => None end.
Proof.
  destruct s as [|c s]; simpl; [reflexivity|].
  now rewrite andb_false_r.
Qed.

Lemma run_app_stop p a c b :
  forallb p a = true -> p c = false -> run p (a ++ c :: b) = length a.
Proof.
  intros Ha Hc. induction a as [|x a IH]; simpl in *.
  - now rewrite Hc.
  - apply andb_prop in Ha as [Hx Ha]. rewrite Hx. f_equal. auto.
Qed.

Lemma newline_not_word_or_dash : word_or_dash ua NL = false.
Proof. reflexivity. Qed.

Lemma fence_open_match lang rest :
  forallb (word_or_dash ua) lang = true ->
  match_here ua (FENCE_OPEN ua) None (FENCE ++ lang ++ NL :: rest)
  = Some (3 + (length lang + 1))%nat.
Proof.
  intros Hl. unfold FENCE_OPEN, FENCE, Chr, star, opt.
  cbn [match_here app]. rewrite !N.eqb_refl. cbn [option_map].
  rewrite (rep_star_run _ _ _ _ 1%nat).
  - rewrite (run_app_stop _ _ _ _ Hl newline_not_word_or_dash). reflexivity.
  - rewrite (run_app_stop _ _ _ _ Hl newline_not_word_or_dash).
    rewrite skipn_app, Nat.sub_diag, skipn_all. cbn [skipn app match_here].
    cbn [rep]. rewrite N.eqb_refl. cbn [more andb dec option_map Nat.pred].
    rewrite rep_exhausted. reflexivity.
Qed.

Lemma sub_scan_skip_all pat repl a :
  forall prev b,
    sub_scan ua pat repl (length a) prev (a ++ b)
    = sub_scan ua pat repl O (last_opt prev a) b.
Proof.
  induction a as [|x a IH]; intros prev b; [reflexivity|].
  cbn [length app]. rewrite sub_scan_skip. apply IH.
Qed.

(** The opening fence with its language tag and newline is removed. *)
Lemma re_sub_fence_open lang rest :
  forallb (word_or_dash ua) lang = true ->
  re_sub ua (FENCE_OPEN ua) [] (FENCE ++ lang ++ NL :: rest) = rest.
Proof.
  intros Hl. unfold re_sub.
  assert (Hm := fence_open_match lang rest Hl).
  change (FENCE ++ lang ++ NL :: rest)
    with (BACKTICK :: ([BACKTICK; BACKTICK] ++ lang ++ NL :: rest)) in *.
  rewrite sub_scan_try, Hm. cbn [Nat.add app].
  rewrite !sub_scan_skip.
  replace (lang ++ NL :: rest) with ((lang ++ [NL]) ++ rest)
    by (rewrite <- app_assoc; reflexivity).
  replace (length lang + 1)%nat with (length (lang ++ [NL]))
    by (rewrite length_app; reflexivity).
  rewrite sub_scan_skip_all.
  rewrite last_opt_snoc.
  apply sub_scan_no_match, search_bol_later.
Qed.

Lemma fence_close_shapes prev s n :
  match_here ua FENCE_CLOSE prev s = Some n ->
  s = FENCE \/ s = NL :: FENCE \/ s = FENCE ++ [NL] \/ s = NL :: FENCE ++ [NL].
Proof.
  intros H. apply match_here_sound in H. unfold FENCE_CLOSE, Chr, opt in H.
  inversion H as [ | | | | | ? ? ? ? ? pre rest ? Hp _ Hw H1 ]; subst.
  inversion H1 as [ | ? ? ? a ? ? Ea H2 | | | | ]; subst.
  inversion H2 as [ | ? ? ? b ? ? Eb H3 | | | | ]; subst.
  inversion H3 as [ | ? ? ? c ? ? Ec H4 | | | | ]; subst.
  inversion H4 as [ | | | ? ? ? ? He _ | | ]; subst.
  apply N.eqb_eq in Ea, Eb, Ec. subst.
  destruct pre as [|x [|y pre]]; simpl in Hw; try lia.
  - apply at_end_cases in He as [-> | ->]; auto.
  - cbn [forallb] in Hp. rewrite andb_true_r in Hp.
    apply (N.eqb_eq NL x) in Hp. subst x.
    apply at_end_cases in He as [-> | ->]; auto.
Qed.

Lemma fence_close_not_inside prev c u :
  match_here ua FENCE_CLOSE prev (c :: u ++ NL :: FENCE) = None.
Proof.
  destruct (match_here ua FENCE_CLOSE prev (c :: u ++ NL :: FENCE)) eqn:E;
    [|reflexivity].
  exfalso. apply fence_close_shapes in E.
  assert (L : (5 <= length (c :: u ++ NL :: FENCE))%nat)
    by (simpl; rewrite length_app; simpl; lia).
  destruct E as [E|[E|[E|E]]]; rewrite E in L; simpl in L; try lia.
  destruct u as [|x u]; simpl in E; [discriminate|].
  apply (f_equal (@length N)) in E. simpl in E. rewrite length_app in E.
  simpl in E. lia.
Qed.

(** The closing fence with the newline before it is removed. *)
Lemma re_sub_fence_close body :
  forall prev,
    sub_scan ua FENCE_CLOSE [] O prev (body ++ NL :: FENCE) = body.
Proof.
  induction body as [|c u IH]; intros prev.
  - reflexivity.
  - cbn [app]. rewrite sub_scan_try, fence_close_not_inside.
    f_equal. apply IH.
Qed.

Lemma fenced_answer lang body :
  forallb (word_or_dash ua) lang = true ->
  normalize_one_line ua (FENCE ++ lang ++ [NL] ++ body ++ [NL] ++ FENCE)
  = flatten ua (unwrap_backticks body).
Proof.
  intros Hl.
  assert (Hs : strip (FENCE ++ lang ++ [NL] ++ body ++ [NL] ++ FENCE)
               = FENCE ++ lang ++ [NL] ++ body ++ [NL] ++ FENCE).
  { unfold strip, FENCE. cbn [app]. rewrite lstrip_nonspace by reflexivity.
    replace (BACKTICK :: BACKTICK :: BACKTICK
               :: lang ++ NL :: body ++ [NL; BACKTICK; BACKTICK; BACKTICK])
      with ((BACKTICK :: BACKTICK :: BACKTICK
               :: lang ++ NL :: body ++ [NL; BACKTICK; BACKTICK]) ++ [BACKTICK]).
    - now apply rstrip_nonspace_last.
    - cbn [app]. do 3 f_equal. rewrite <- app_assoc. cbn [app]. f_equal.
      f_equal. rewrite <- app_assoc. reflexivity. }
  unfold FENCE at 1. cbn [app]. rewrite normalize_cons.
  change (BACKTICK :: BACKTICK :: BACKTICK :: lang ++ NL :: body ++ NL :: FENCE)
    with (FENCE ++ lang ++ [NL] ++ body ++ [NL] ++ FENCE).
  rewrite Hs.
  change (FENCE ++ lang ++ [NL] ++ body ++ [NL] ++ FENCE)
    with (FENCE ++ lang ++ NL :: (body ++ NL :: FENCE)).
  rewrite re_sub_fence_open by assumption.
  unfold re_sub. rewrite re_sub_fence_close. reflexivity.
Qed.

(** X7: a fenced answer, three backticks with a language tag of word
    characters and dashes, a newline, the body, a newline and three
    backticks, normalizes to what the backtick step and the flattening
    make of the body alone; a body that [normalize_one_line] leaves
    unchanged is returned as it is. *)
Theorem X7_fenced_answer (lang body : pystr) :
  forallb (word_or_dash ua) lang = true ->
  normalize_one_line ua (FENCE ++ lang ++ [NL] ++ body ++ [NL] ++ FENCE)
  = flatten ua (unwrap_backticks body)
  /\ (normalize_one_line ua body = body ->
      normalize_one_line ua (FENCE ++ lang ++ [NL] ++ body ++ [NL] ++ FENCE)
      = body).
Proof.
  intros Hl. assert (E := fenced_answer lang body Hl).
  split; [exact E|]. intros Hb. rewrite E.
  apply normalize_fixed_iff in Hb as (H1 & H2 & H3 & H4 & H5 & H6).
  unfold unwrap_backticks. rewrite H6. now apply flatten_fixed.
Qed.

End NormalizerShape.

Lemma X5_witness : normalize_one_line t0 (py "  " ++ [NL; 9]) = [].
Proof. apply (X5_normalize_blank t0 (py "  " ++ [NL; 9])). reflexivity. Defined.

Lemma X6_witness :
  nonspace (normalize_one_line t0 (py " ls   -la " ++ [NL] ++ py " /tmp "))
  = py "ls-la/tmp".
Proof.
  apply (X6_normalize_keeps_text t0 (py " ls   -la " ++ [NL] ++ py " /tmp ")).
  vm_compute. intuition discriminate.
Defined.

Lemma X7_witness :
  normalize_one_line t0
    (FENCE ++ py "sh" ++ [NL] ++ py "ls -la | wc -l" ++ [NL] ++ FENCE)
  = py "ls -la | wc -l".
Proof.
  apply (proj2 (X7_fenced_answer t0 (py "sh") (py "ls -la | wc -l") eq_refl)).
  reflexivity.
Defined.

(** ** Further properties of the classifier *)

Section ClassifierSignatures.

Variable ua : N -> bool.

Lemma first_match_spec pats cmd :
  first_match ua pats cmd = true <->
  exists pat, In pat pats /\ matches_in ua pat cmd.
Proof.
  induction pats as [|pat pats IH]; simpl.
  - split; [discriminate | intros (pat & [] & _)].
  - destruct (re_search ua pat cmd) eqn:E.
    + split; [intros _ | reflexivity].
      exists pat. split; [now left | now apply re_search_spec].
    + rewrite IH. split.
      * intros (q & Hq & Hm). exists q. split; [now right | assumption].
      * intros (q & [<- | Hq] & Hm).
        -- apply re_search_spec in Hm. congruence.
        -- now exists q.
Qed.

Lemma dangerous_by pat cmd :
  In pat (DANGEROUS_PATTERNS ua) -> matches_in ua pat cmd ->
  is_dangerous ua cmd = true.
Proof. intros Hi Hm. apply first_match_spec. eauto. Qed.

(** A literal matches itself. *)
Lemma matches_lit w :
  forall pat prev rest n,
    matches ua pat (last_opt prev w) rest n ->
    matches ua (List.map Chr w ++ pat) prev (w ++ rest) (length w + n).
Proof.
  induction w as [|c w IH]; intros pat prev rest n H; simpl in *.
  - exact H.
  - constructor; [apply N.eqb_refl|]. now apply IH.
Qed.

(** X8: a command that contains the text "mkfs." anywhere is classified
    dangerous. *)
Theorem X8_mkfs_anywhere (pre post : pystr) :
  is_dangerous ua (pre ++ py "mkfs." ++ post) = true.
Proof.
  apply (dangerous_by (lit "mkfs.")).
  - right. now left.
  - exists pre, (py "mkfs." ++ post), 5%nat. split; [reflexivity|].
    unfold lit. rewrite <- (app_nil_r (List.map Chr (py "mkfs."))).
    apply (matches_lit (py "mkfs.") [] _ post O). constructor.
Qed.

(** A whole word between two word boundaries. *)
Lemma matches_whole_word w pre post :
  w <> [] -> forallb (is_word ua) w = true ->
  word_opt ua (last_opt None pre) = false ->
  word_opt ua (head post) = false ->
  matches_in ua ([Wordb] ++ List.map Chr w ++ [Wordb]) (pre ++ w ++ post).
Proof.
  intros Hne Hw Hp Hs.
  exists pre, (w ++ post), (length w + 0)%nat. split; [reflexivity|].
  destruct w as [|c w]; [congruence|].
  assert (Hl : word_opt ua (last_opt (last_opt None pre) (c :: w)) = true).
  { clear Hne. cbn [last_opt fold_left].
    change (fold_left (fun _ x => Some x) w (Some c))
      with (last_opt (Some c) w).
    cbn [forallb] in Hw. apply andb_prop in Hw as [Hc Hw].
    revert c Hc. induction w as [|d w IH]; intros c Hc; [exact Hc|].
    cbn [forallb] in Hw. apply andb_prop in Hw as [Hd Hw].
    cbn [last_opt fold_left]. now apply IH. }
  cbn [app]. constructor.
  - unfold boundary. rewrite Hp. cbn [app head word_opt].
    cbn [forallb] in Hw. apply andb_prop in Hw as [-> _]. reflexivity.
  - apply (matches_lit (c :: w) [Wordb] _ post O).
    constructor; [|constructor].
    unfold boundary. rewrite Hl, Hs. reflexivity.
Qed.

(** X9: a command in which "umount", "shutdown" or "reboot" stands as a
    whole word, with no word character directly before or after it, is
    classified dangerous. *)
Theorem X9_whole_word_signatures (w pre post : pystr) :
  w = py "umount" \/ w = py "shutdown" \/ w = py "reboot" ->
  word_opt ua (last_opt None pre) = false ->
  word_opt ua (head post) = false ->
  is_dangerous ua (pre ++ w ++ post) = true.
Proof.
  intros Hw Hp Hs.
  destruct Hw as [-> | [-> | ->]].
  - apply (dangerous_by ([Wordb] ++ lit "umount" ++ [Wordb])).
    + do 2 right. now left.
    + apply matches_whole_word; auto; discriminate.
  - apply (dangerous_by ([Wordb] ++ lit "shutdown" ++ [Wordb])).
    + do 4 right. now left.
    + apply matches_whole_word; auto; discriminate.
  - apply (dangerous_by ([Wordb] ++ lit "reboot" ++ [Wordb])).
    + do 5 right. now left.
    + apply matches_whole_word; auto; discriminate.
Qed.

Lemma boundary_after_slash s :
  boundary ua (Some 47) s = true <->
  exists c post, s = c :: post /\ is_word ua c = true.
Proof.
  unfold boundary. change (word_opt ua (Some 47)) with false.
  rewrite xorb_false_l. destruct s as [|c post]; simpl.
  - split; [discriminate | intros (c & post & H & _); discriminate].
  - split.
    + intros H. now exists c, post.
    + intros (c' & post' & H & Hc). injection H as <- <-. exact Hc.
Qed.

(** X10: the recursive root deletion signature, the first of the list,
    is found in a command exactly when the command contains "rm", white
    space, "-rf", white space and a slash that is directly followed by a
    word character; a slash at the end of the command, or followed by a
    space or another character that is not a word character, is not
    matched by it. *)
Theorem X10_rm_rf_signature (cmd : pystr) :
  re_search ua (hd [] (DANGEROUS_PATTERNS ua)) cmd = true <->
  exists pre ws1 ws2 c post,
    cmd = pre ++ py "rm" ++ ws1 ++ py "-rf" ++ ws2 ++ py "/" ++ c :: post
    /\ ws1 <> [] /\ forallb is_space ws1 = true
    /\ ws2 <> [] /\ forallb is_space ws2 = true
    /\ is_word ua c = true.
Proof.
  rewrite re_search_spec. unfold matches_in.
  change (hd [] (DANGEROUS_PATTERNS ua))
    with [Chr 114; Chr 109; Rep is_space 1 None; Chr 45; Chr 114; Chr 102;
          Rep is_space 1 None; Chr 47; Wordb].
  unfold Chr. split.
  - intros (pre & post & n & -> & H).
    repeat match goal with
           | H : matches _ (Cls _ :: _) _ _ _ |- _ =>
               inversion H; subst; clear H
           | H : matches _ (Rep _ _ _ :: _) _ _ _ |- _ =>
               inversion H; subst; clear H
           | H : matches _ (Wordb :: _) _ _ _ |- _ =>
               inversion H; subst; clear H
           | H : matches _ [] _ _ _ |- _ => inversion H; subst; clear H
           | H : (_ =? _) = true |- _ => apply N.eqb_eq in H; subst
           end.
    match goal with H : boundary _ _ _ = true |- _ =>
      apply boundary_after_slash in H as (c & post' & -> & Hc) end.
    match goal with
    | H1 : forallb is_space ?a = true, H2 : forallb is_space ?b = true
      |- context [?a ++ _ :: _ :: _ :: ?b ++ _] =>
        exists pre, a, b, c, post'
    end.
    repeat split; auto.
    + intros ->. simpl in *. lia.
    + intros ->. simpl in *. lia.
  - intros (pre & ws1 & ws2 & c & post & -> & H1 & H2 & H3 & H4 & Hc).
    exists pre, (py "rm" ++ ws1 ++ py "-rf" ++ ws2 ++ py "/" ++ c :: post).
    eexists. split; [reflexivity|].
    change (py "rm" ++ ws1 ++ py "-rf" ++ ws2 ++ py "/" ++ c :: post)
      with (114 :: 109 :: ws1 ++ (45 :: 114 :: 102 :: ws2 ++ (47 :: c :: post))).
    do 2 (constructor; [reflexivity|]).
    apply M_rep; [assumption | destruct ws1; simpl; [congruence | lia] | exact I |].
    do 3 (constructor; [reflexivity|]).
    apply M_rep; [assumption | destruct ws2; simpl; [congruence | lia] | exact I |].
    constructor; [reflexivity|].
    constructor; [|constructor].
    apply boundary_after_slash. eauto.
Qed.

End ClassifierSignatures.

Lemma X9_witness :
  is_dangerous t0 (py "sudo " ++ py "reboot" ++ py " -f") = true.
Proof.
  apply (X9_whole_word_signatures t0 (py "reboot") (py "sudo ") (py " -f"));
    auto.
Defined.

(** ** The backtick step, on every input *)

Section BacktickStep.

Variable ua : N -> bool.

Lemma normalize_defenced s :
  normalize_one_line ua s = flatten ua (unwrap_backticks (defenced ua s)).
Proof. destruct s as [|c s]; reflexivity. Qed.

Lemma unwrap_wrapped body :
  unwrap_backticks (BACKTICK :: body ++ [BACKTICK]) = strip body.
Proof.
  unfold unwrap_backticks.
  assert (He : endswith [BACKTICK] (BACKTICK :: body ++ [BACKTICK]) = true)
    by apply (endswith_app [BACKTICK] (BACKTICK :: body)).
  rewrite He. cbn [startswith]. rewrite N.eqb_refl. cbn [andb].
  unfold slice_1_m1. cbn [tl]. now rewrite removelast_last.
Qed.

Lemma strip_fenced lang body :
  strip (FENCE ++ lang ++ [NL] ++ body ++ [NL] ++ FENCE)
  = FENCE ++ lang ++ [NL] ++ body ++ [NL] ++ FENCE.
Proof.
  unfold strip, FENCE. cbn [app]. rewrite lstrip_nonspace by reflexivity.
  replace (BACKTICK :: BACKTICK :: BACKTICK
             :: lang ++ NL :: body ++ [NL; BACKTICK; BACKTICK; BACKTICK])
    with ((BACKTICK :: BACKTICK :: BACKTICK
             :: lang ++ NL :: body ++ [NL; BACKTICK; BACKTICK]) ++ [BACKTICK]).
  - now apply rstrip_nonspace_last.
  - cbn [app]. do 3 f_equal. rewrite <- app_assoc. cbn [app]. f_equal.
    f_equal. rewrite <- app_assoc. reflexivity.
Qed.

(** C9, amended: let [t] be the string left after trimming and fence
    removal.  When [t] is a backtick, any body, and a backtick, the result
    is the flattened, trimmed body, whether or not the two backticks pair
    up; when [t] does not both begin and end with a backtick, the result
    is the flattened [t], with all its backticks.  In both cases every
    character that is not white space is kept.  [t] is the input itself
    when the input is trimmed and has no fence at either end, and the body
    when the input is a fenced answer. *)
Theorem C9_backtick_step :
  (forall s body,
      defenced ua s = BACKTICK :: body ++ [BACKTICK] ->
      normalize_one_line ua s = flatten ua (strip body)
      /\ nonspace (normalize_one_line ua s) = nonspace body) /\
  (forall s,
      startswith [BACKTICK] (defenced ua s)
        && endswith [BACKTICK] (defenced ua s) = false ->
      normalize_one_line ua s = flatten ua (defenced ua s)
      /\ nonspace (normalize_one_line ua s) = nonspace (defenced ua s)) /\
  (forall s,
      strip s = s ->
      startswith FENCE s = false -> endswith FENCE s = false ->
      defenced ua s = s) /\
  (forall lang body,
      forallb (word_or_dash ua) lang = true ->
      defenced ua (FENCE ++ lang ++ [NL] ++ body ++ [NL] ++ FENCE) = body).
Proof.
  split; [|split; [|split]].
  - intros s body H.
    assert (E : normalize_one_line ua s = flatten ua (strip body))
      by (rewrite normalize_defenced, H; now rewrite unwrap_wrapped).
    split; [exact E|]. now rewrite E, flatten_nonspace, nonspace_strip.
  - intros s H.
    assert (E : normalize_one_line ua s = flatten ua (defenced ua s))
      by (rewrite normalize_defenced; unfold unwrap_backticks; now rewrite H).
    split; [exact E|]. now rewrite E, flatten_nonspace.
  - intros s H1 H2 H3. unfold defenced. rewrite H1.
    rewrite re_sub_fence_open_id by assumption.
    apply re_sub_fence_close_id; auto using stripped_no_final_newline.
  - intros lang body Hl. unfold defenced. rewrite strip_fenced.
    change (FENCE ++ lang ++ [NL] ++ body ++ [NL] ++ FENCE)
      with (FENCE ++ lang ++ NL :: (body ++ NL :: FENCE)).
    rewrite re_sub_fence_open by assumption.
    unfold re_sub. apply re_sub_fence_close.
Qed.

End BacktickStep.

(** C9, at a fenced answer whose body is wrapped in backticks, and at a
    command with an inner pair. *)
Lemma C9_witness :
  normalize_one_line t0
    (FENCE ++ py "sh" ++ [NL] ++ py "`ls` | `wc`" ++ [NL] ++ FENCE)
  = py "ls` | `wc"
  /\ normalize_one_line t0 (py "echo  `date`") = py "echo `date`".
Proof.
  split.
  - apply (proj1 (C9_backtick_step t0)
             (FENCE ++ py "sh" ++ [NL] ++ py "`ls` | `wc`" ++ [NL] ++ FENCE)
             (py "ls` | `wc")).
    reflexivity.
  - apply (proj1 (proj2 (C9_backtick_step t0)) (py "echo  `date`")).
    reflexivity.
Defined.

(** ** Further properties of the session controller *)

Ltac world_simpl :=
  cbn [fst snd w_state w_hist w_hist_ok w_stdin w_stdout w_stderr w_prompts
       w_ran w_now set_state add_hist set_stdin add_stdout add_stderr
       add_prompt add_ran set_hist_ok] in *.

(** Case analysis on an innermost scrutinee of the goal. *)
Ltac case_step :=
  match goal with
  | |- context [match ?x with _ => _ end] =>
      lazymatch x with
      | context [match _ with _ => _ end] => fail
      | _ => destruct x eqn:?
      end
  end.

Ltac all_cases := repeat (world_simpl; case_step).

Ltac unfold_program :=
  unfold main, main_refine, main_suggest, main_run, main_explain, explain,
    load_state;
  unfold run_execute, refine, suggest, call_ollama, print, print_noend,
    eprint, ewrite, save_history, save_state, input, sys_exit, raise, modify,
    ret, bind.

Section ControllerFlow.

Variable ua : N -> bool.
Variable uni_lower : pystr -> pystr.
Variable dedent : pystr -> pystr.
Variable ollama : pystr -> pystr -> pystr + pystr.
Variable shell_run : pystr -> pystr -> pystr * pystr * Z.

Local Abbreviation normalize := (normalize_one_line ua).
Local Abbreviation mainP := (main ua uni_lower dedent ollama shell_run).

(** X11: suggest, refine and explain mode never hand a command to the
    shell and never read standard input, and when they exit through
    [sys.exit] the status is 1 or 2. *)
Theorem X11_only_run_mode_executes (args : Args) (w : World) :
  a_mode args <> Run ->
  w_ran (snd (mainP args w)) = w_ran w
  /\ w_stdin (snd (mainP args w)) = w_stdin w
  /\ (forall c, fst (mainP args w) = Exit c -> c = 1%Z \/ c = 2%Z).
Proof.
  intros Hm. destruct w as [st hist ok sin sout serr prompts ran now].
  unfold_program. world_simpl.
  destruct (a_mode args) eqn:E; [|congruence| |];
    all_cases; world_simpl;
    (split; [reflexivity|]; split; [reflexivity|]);
    intros c Hc; inversion Hc; auto.
Qed.

(** X12: explain mode changes neither the state file nor the history
    log, whatever the arguments, the stored state and the backend's
    answer. *)
Theorem X12_explain_writes_nothing (args : Args) (w : World) :
  a_mode args = Explain ->
  w_state (snd (mainP args w)) = w_state w
  /\ w_hist (snd (mainP args w)) = w_hist w.
Proof.
  intros Hm. destruct w as [st hist ok sin sout serr prompts ran now].
  unfold_program. world_simpl. rewrite Hm.
  all_cases; world_simpl; auto.
Qed.

Lemma main_dispatch (args : Args) (w : World) :
  mainP args w =
  match a_mode args with
  | Refine => main_refine ua ollama args (stored w) w
  | Suggest => main_suggest ua ollama args w
  | Explain => main_explain dedent ollama args (stored w) w
  | Run => main_run ua uni_lower ollama shell_run args w
  end.
Proof.
  unfold main. unfold bind at 1. rewrite load_state_stored.
  now destruct (a_mode args).
Qed.

Lemma truthy_default (v : option jval) :
  truthy (Some (default (JStr []) v)) = truthy v.
Proof. now destruct v. Qed.

(** X13: explain mode explains the command given with [--cmd], trimmed;
    when that is empty it falls back to the stored command; when there is
    neither it exits with status 1 without calling the backend. *)
Theorem X13_explain_command_choice (args : Args) (w : World) :
  a_mode args = Explain ->
  (strip (a_cmd args) <> [] ->
   w_prompts (snd (mainP args w)) =
   w_prompts w ++ [(a_model args, EXPLAIN_TEMPLATE (strip (a_cmd args)))])
  /\ (forall v,
         strip (a_cmd args) = [] ->
         stored w !! "cmd"%string = Some v -> truthy (Some v) = true ->
         w_prompts (snd (mainP args w)) =
         w_prompts w ++ [(a_model args, EXPLAIN_TEMPLATE (jtext v))])
  /\ (strip (a_cmd args) = [] -> truthy (stored w !! "cmd"%string) = false ->
      mainP args w = (Exit 1, add_stderr (ERR_NO_CMD ++ [NL]) w)).
Proof.
  intros Hm. rewrite !main_dispatch, Hm. unfold main_explain.
  split; [|split].
  - intros Hc. apply is_nil_false in Hc. rewrite Hc.
    unfold explain, call_ollama, print, eprint, sys_exit, modify, ret, bind.
    destruct (ollama _ _); reflexivity.
  - intros v Hc Hv Ht. rewrite Hc, Hv. cbn [is_nil default from_option id].
    rewrite Ht.
    unfold explain, call_ollama, print, eprint, sys_exit, modify, ret, bind.
    destruct (ollama _ _); reflexivity.
  - intros Hc Ht. rewrite Hc. cbn [is_nil].
    rewrite truthy_default, Ht. reflexivity.
Qed.

(** X14: a command reaches the shell only in run mode and only after the
    first line of standard input passed the confirmation gate: "YES" after
    trimming for a command classified dangerous, "y" or "yes" after
    lowercasing and trimming otherwise. *)
Theorem X14_no_execution_without_consent (args : Args) (w : World) :
  w_ran (snd (mainP args w)) <> w_ran w ->
  a_mode args = Run
  /\ exists raw line rest,
       ollama (a_model args) (SYSTEM_TEMPLATE (join [SPACE] (a_task args)))
       = inl raw
       /\ w_stdin w = line :: rest
       /\ (if is_dangerous ua (normalize (strip raw))
           then strip line = py "YES"
           else is_yes (strip (lower uni_lower line)) = true).
Proof.
  destruct w as [st hist ok sin sout serr prompts ran now].
  unfold_program. world_simpl.
  destruct (a_mode args) eqn:E.
  1, 3, 4: all_cases; world_simpl; intros H; exfalso; apply H; reflexivity.
  repeat (world_simpl; case_step); world_simpl; intros H;
    try (exfalso; apply H; reflexivity);
    (split; [reflexivity|]);
    do 3 eexists; (split; [reflexivity|]); (split; [reflexivity|]);
    match goal with
    | Hd : is_dangerous ua _ = _ |- _ => rewrite Hd
    end;
    match goal with
    | Hn : negb (str_eqb _ _) = false |- _ =>
        apply negb_false_iff, str_eqb_eq in Hn; exact Hn
    | Hn : negb (is_yes _) = false |- _ =>
        apply negb_false_iff in Hn; exact Hn
    end.
Qed.

(** X15: in run mode, when the command is not classified dangerous and
    the answer, lowercased and trimmed, is neither "y" nor "yes", the
    invocation exits with status 0, hands nothing to the shell, stores the
    task and the command, and leaves the history log alone. *)
Theorem X15_normal_decline (args : Args) (w : World)
    (raw line : pystr) (rest : list pystr) :
  a_mode args = Run -> a_task args <> [] ->
  ollama (a_model args) (SYSTEM_TEMPLATE (join [SPACE] (a_task args))) = inl raw ->
  normalize (strip raw) <> [] ->
  is_dangerous ua (normalize (strip raw)) = false ->
  w_stdin w = line :: rest ->
  is_yes (strip (lower uni_lower line)) = false ->
  fst (mainP args w) = Exit 0
  /\ w_ran (snd (mainP args w)) = w_ran w
  /\ w_hist (snd (mainP args w)) = w_hist w
  /\ w_state (snd (mainP args w)) =
     Stored (state_record (JStr (join [SPACE] (a_task args)))
                          (normalize (strip raw)) None None (w_now w)).
Proof.
  intros Hm Ht Ho Hc Hd Hin Hno.
  rewrite (run_until_gate ua uni_lower dedent ollama shell_run args w raw
             Hm Ht Ho Hc).
  cbn zeta. rewrite Hd.
  unfold bind, input, print, save_state, sys_exit, modify.
  world_simpl. rewrite Hin, Hno. world_simpl. auto.
Qed.

(** X16: in run mode, when the confirmed command returns 0, its captured
    standard output is printed and the command is handed to the shell
    once.  When the no-history flag is set or the history log can be
    written, the log gets one entry unless the flag is set, the stored
    state records the command with an empty error and exit code 0, and the
    invocation exits with status 0.  When the flag is not set and the log
    cannot be written, the invocation ends with the uncaught [OSError] and
    leaves the history log and the state file as they were. *)
Theorem X16_successful_run (args : Args) (w : World)
    (raw line out err : pystr) (rest : list pystr) :
  a_mode args = Run -> a_task args <> [] ->
  ollama (a_model args) (SYSTEM_TEMPLATE (join [SPACE] (a_task args))) = inl raw ->
  normalize (strip raw) <> [] ->
  w_stdin w = line :: rest ->
  (if is_dangerous ua (normalize (strip raw))
   then str_eqb (strip line) (py "YES")
   else is_yes (strip (lower uni_lower line))) = true ->
  shell_run (a_shell args) (normalize (strip raw)) = (out, err, 0%Z) ->
  w_ran (snd (mainP args w)) =
  w_ran w ++ [(a_shell args, normalize (strip raw))]
  /\ (exists pre, w_stdout (snd (mainP args w)) = pre ++ [out])
  /\ (a_no_history args = true \/ w_hist_ok w = true ->
      fst (mainP args w) = Exit 0
      /\ w_hist (snd (mainP args w)) =
         (if a_no_history args then w_hist w
          else w_hist w ++ [history_entry (w_now w)
                              (JStr (join [SPACE] (a_task args)))
                              (normalize (strip raw))])
      /\ w_state (snd (mainP args w)) =
         Stored (state_record (JStr (join [SPACE] (a_task args)))
                              (normalize (strip raw)) (Some []) (Some 0%Z)
                              (w_now w)))
  /\ (a_no_history args = false -> w_hist_ok w = false ->
      fst (mainP args w) = Raise OSError
      /\ w_hist (snd (mainP args w)) = w_hist w
      /\ w_state (snd (mainP args w)) = w_state w).
Proof.
  intros Hm Ht Ho Hc Hin Hgate Hsh.
  rewrite (run_until_gate ua uni_lower dedent ollama shell_run args w raw
             Hm Ht Ho Hc).
  cbn zeta.
  destruct (is_dangerous ua (normalize (strip raw)));
    unfold run_execute, print, print_noend, eprint, ewrite, save_history,
      save_state, input, sys_exit, modify, ret, bind;
    world_simpl; rewrite Hin, Hgate; cbn [negb]; world_simpl;
    rewrite Hsh; cbn [Z.eqb]; world_simpl;
    destruct (a_no_history args); world_simpl;
    try (destruct (w_hist_ok w); world_simpl);
    (split; [reflexivity|]);
    (split; [eexists; reflexivity|]);
    (split; [intros [Hh|Hh]; try discriminate; auto
            |intros Hh1 Hh2; try discriminate; auto]).
Qed.

(** X17: with the no-history flag the history log is never written, in
    any mode and on every path. *)
Theorem X17_no_history_flag (args : Args) (w : World) :
  a_no_history args = true ->
  w_hist (snd (mainP args w)) = w_hist w.
Proof.
  intros Hn. destruct w as [st hist ok sin sout serr prompts ran now].
  unfold_program. rewrite Hn. world_simpl.
  destruct (a_mode args); all_cases; world_simpl; reflexivity.
Qed.

(** X18: the history log is append-only and grows by at most one entry
    per invocation; the entry is stamped with the current time and names
    a command that is not empty. *)
Theorem X18_history_append_only (args : Args) (w : World) :
  w_hist (snd (mainP args w)) = w_hist w
  \/ exists task cmd,
       w_hist (snd (mainP args w))
       = w_hist w ++ [history_entry (w_now w) task cmd]
       /\ cmd <> [].
Proof.
  destruct w as [st hist ok sin sout serr prompts ran now].
  unfold_program. world_simpl.
  destruct (a_mode args); all_cases; world_simpl;
    try (left; reflexivity);
    right; do 2 eexists; (split; [reflexivity|]);
    match goal with
    | H : is_nil ?c || _ = false |- ?c <> [] =>
        apply orb_false_elim in H as [H _]; now apply is_nil_false in H
    end.
Qed.

(** X19: whenever an invocation changes the state file, the file then
    holds a complete record, stamped with the current time, whose command
    is not empty and has no newline. *)
Theorem X19_stored_command_invariant (args : Args) (w : World) :
  w_state (snd (mainP args w)) = w_state w
  \/ exists task cmd last_error exit_code,
       w_state (snd (mainP args w))
       = Stored (state_record task cmd last_error exit_code (w_now w))
       /\ cmd <> [] /\ contains NL cmd = false.
Proof.
  destruct w as [st hist ok sin sout serr prompts ran now].
  unfold_program. world_simpl.
  destruct (a_mode args); all_cases; world_simpl;
    try (left; reflexivity);
    right; do 4 eexists; (split; [reflexivity|]);
    match goal with
    | H : is_nil ?c || contains NL ?c = false |- ?c <> [] /\ _ =>
        apply orb_false_elim in H as [H1 H2];
        split; [now apply is_nil_false in H1 | exact H2]
    end.
Qed.

(** X20: when the backend process fails on every call, no mode writes the
    state file or the history log or runs a command, and the invocation
    exits with status 1.  The one exception is refine mode with the
    reuse-last flag, a stored task and command, no [--why] text and a
    stored error that is not a string: there the invocation ends with the
    exception of [problem.strip()], before the backend is called. *)
Theorem X20_backend_down (args : Args) (w : World) :
  (forall m p, exists e, ollama m p = inr e) ->
  w_state (snd (mainP args w)) = w_state w
  /\ w_hist (snd (mainP args w)) = w_hist w
  /\ w_ran (snd (mainP args w)) = w_ran w
  /\ fst (mainP args w) =
     (if match a_mode args with
         | Refine => stored_error_not_text args w
         | _ => false
         end
      then Raise AttributeError else Exit 1).
Proof.
  intros Hb. destruct w as [st hist ok sin sout serr prompts ran now].
  unfold stored_error_not_text, stored.
  unfold_program. world_simpl.
  destruct (a_mode args);
    repeat (world_simpl; cbn [default from_option id negb orb andb] in *;
            match goal with
            | |- context [ollama ?m ?p] =>
                let H := fresh in
                destruct (Hb m p) as [? H]; rewrite H
            | _ => case_step
            end);
    world_simpl; cbn [default from_option id negb orb andb is_nil] in *;
    repeat split; try reflexivity; try congruence;
    repeat match goal with
           | H : context [truthy ?x] |- _ =>
               let b := fresh "b" in
               let E := fresh in
               remember (truthy x) as b eqn:E in *; clear E; destruct b
           end;
    cbn [negb orb andb] in *; congruence.
Qed.

(** X21: a state file that cannot be parsed is treated as no state file:
    the outcome, the output, the prompts, the shell runs and the history
    are the same, and the file is either left as it was or overwritten
    with the same record. *)
Theorem X21_unreadable_state_is_no_state (args : Args) (w : World) :
  let r1 := mainP args (set_state Unreadable w) in
  let r2 := mainP args (set_state Absent w) in
  fst r1 = fst r2
  /\ w_stdout (snd r1) = w_stdout (snd r2)
  /\ w_stderr (snd r1) = w_stderr (snd r2)
  /\ w_prompts (snd r1) = w_prompts (snd r2)
  /\ w_ran (snd r1) = w_ran (snd r2)
  /\ w_hist (snd r1) = w_hist (snd r2)
  /\ (w_state (snd r1) = w_state (snd r2)
      \/ (w_state (snd r1) = Unreadable /\ w_state (snd r2) = Absent)).
Proof.
  destruct w as [st hist ok sin sout serr prompts ran now].
  cbn zeta. unfold_program. world_simpl.
  destruct (a_mode args); all_cases; world_simpl;
    repeat split; auto.
Qed.

(** *** One invocation after another *)

Lemma use_last_prompt (args : Args) (w : World) (t c : jval) (p : pystr) :
  a_mode args = Refine -> a_use_last args = true ->
  stored w !! "task"%string = Some t -> truthy (Some t) = true ->
  stored w !! "cmd"%string = Some c -> truthy (Some c) = true ->
  (if is_nil (a_why args)
   then default (JStr []) (stored w !! "last_error"%string)
   else JStr (a_why args)) = JStr p ->
  w_prompts (snd (mainP args w)) =
  w_prompts w ++
  [(a_model args, REFINE_TEMPLATE (jtext t) (jtext c) (why_text p))].
Proof.
  intros Hm Hu Ht Htt Hc Hct Hp.
  rewrite main_dispatch, Hm. unfold main_refine. rewrite Hu, Ht, Hc, Htt, Hct.
  cbn [negb orb default from_option id]. rewrite Hp.
  unfold bind, ret. rewrite refine_eval. cbn zeta.
  destruct (ollama _ _) as [raw|e]; [|reflexivity].
  destruct (is_nil (normalize (strip raw))); [reflexivity|].
  unfold save_history, save_state, print, modify.
  destruct (a_no_history args); [reflexivity|].
  world_simpl. destruct (w_hist_ok w); reflexivity.
Qed.

(** X22: refine mode with the reuse-last flag builds its prompt from the
    stored task and the stored command, and takes as problem the text of
    [--why] when one is given, the stored error otherwise; a problem that
    is empty after trimming is replaced by "no details". *)
Theorem X22_use_last_context (args : Args) (w : World) (t c : jval)
    (p : pystr) :
  a_mode args = Refine -> a_use_last args = true ->
  stored w !! "task"%string = Some t -> truthy (Some t) = true ->
  stored w !! "cmd"%string = Some c -> truthy (Some c) = true ->
  (if is_nil (a_why args)
   then default (JStr []) (stored w !! "last_error"%string)
   else JStr (a_why args)) = JStr p ->
  w_prompts (snd (mainP args w)) =
  w_prompts w ++
  [(a_model args, REFINE_TEMPLATE (jtext t) (jtext c) (why_text p))].
Proof. apply use_last_prompt. Qed.

Lemma suggest_success (args : Args) (w : World) (raw : pystr) :
  a_mode args = Suggest -> a_task args <> [] ->
  ollama (a_model args) (SYSTEM_TEMPLATE (join [SPACE] (a_task args))) = inl raw ->
  normalize (strip raw) <> [] ->
  a_no_history args = true \/ w_hist_ok w = true ->
  mainP args w =
  (Ret tt,
   add_stdout (normalize (strip raw) ++ [NL])
     (set_state
        (Stored (state_record (JStr (join [SPACE] (a_task args)))
                              (normalize (strip raw)) None None (w_now w)))
        ((if a_no_history args then fun x => x
          else add_hist (history_entry (w_now w)
                           (JStr (join [SPACE] (a_task args)))
                           (normalize (strip raw))))
           (add_prompt (a_model args,
                        SYSTEM_TEMPLATE (join [SPACE] (a_task args))) w)))).
Proof.
  intros Hm Ht Ho Hc Hh. apply is_nil_false in Ht, Hc.
  rewrite main_dispatch, Hm. unfold main_suggest. rewrite Ht.
  unfold bind at 1. rewrite suggest_eval. cbn zeta. rewrite Ho, Hc.
  unfold bind, save_history, save_state, print, modify, ret.
  destruct (a_no_history args); world_simpl; [reflexivity|].
  destruct Hh as [Hh|Hh]; [discriminate|]. rewrite Hh. reflexivity.
Qed.

(** X23: a successful suggest invocation returns normally, prints the
    command followed by a newline as its only output on standard output,
    stores the task and the command with an empty error, and appends one
    history entry unless the no-history flag is set. *)
Theorem X23_successful_suggest (args : Args) (w : World) (raw : pystr) :
  a_mode args = Suggest -> a_task args <> [] ->
  ollama (a_model args) (SYSTEM_TEMPLATE (join [SPACE] (a_task args))) = inl raw ->
  normalize (strip raw) <> [] ->
  a_no_history args = true \/ w_hist_ok w = true ->
  fst (mainP args w) = Ret tt
  /\ w_stdout (snd (mainP args w)) = w_stdout w ++ [normalize (strip raw) ++ [NL]]
  /\ w_state (snd (mainP args w)) =
     Stored (state_record (JStr (join [SPACE] (a_task args)))
                          (normalize (strip raw)) None None (w_now w))
  /\ w_hist (snd (mainP args w)) =
     (if a_no_history args then w_hist w
      else w_hist w ++ [history_entry (w_now w)
                          (JStr (join [SPACE] (a_task args)))
                          (normalize (strip raw))]).
Proof.
  intros Hm Ht Ho Hc Hh.
  rewrite (suggest_success args w raw Hm Ht Ho Hc Hh).
  destruct (a_no_history args); world_simpl; auto.
Qed.

Lemma why_text_nil_or (why : pystr) :
  why_text (if is_nil why then [] else why) = why_text why.
Proof. now destruct why. Qed.

(** X24: after a successful suggest invocation whose task text is not
    empty, a refine invocation with the reuse-last flag, in any world that
    holds the state file the first one left, sends the refine prompt for
    that task and that command, with the text of [--why] as the problem. *)
Theorem X24_suggest_then_use_last (a1 a2 : Args) (w w2 : World)
    (raw : pystr) :
  a_mode a1 = Suggest -> a_task a1 <> [] ->
  join [SPACE] (a_task a1) <> [] ->
  ollama (a_model a1) (SYSTEM_TEMPLATE (join [SPACE] (a_task a1))) = inl raw ->
  normalize (strip raw) <> [] ->
  a_no_history a1 = true \/ w_hist_ok w = true ->
  w_state w2 = w_state (snd (mainP a1 w)) ->
  a_mode a2 = Refine -> a_use_last a2 = true ->
  w_prompts (snd (mainP a2 w2)) =
  w_prompts w2 ++
  [(a_model a2,
    REFINE_TEMPLATE (join [SPACE] (a_task a1)) (normalize (strip raw))
                    (why_text (a_why a2)))].
Proof.
  intros Hm Ht Hj Ho Hc Hh Hw Hm2 Hu2.
  rewrite (suggest_success a1 w raw Hm Ht Ho Hc Hh) in Hw. world_simpl.
  assert (Hs : stored w2 =
               state_record (JStr (join [SPACE] (a_task a1)))
                            (normalize (strip raw)) None None (w_now w))
    by (unfold stored; now rewrite Hw).
  rewrite <- (why_text_nil_or (a_why a2)).
  apply (use_last_prompt a2 w2 (JStr (join [SPACE] (a_task a1)))
           (JStr (normalize (strip raw)))); auto.
  - rewrite Hs. unfold state_record. now simplify_map_eq.
  - now destruct (join [SPACE] (a_task a1)).
  - rewrite Hs. unfold state_record. now simplify_map_eq.
  - now destruct (normalize (strip raw)).
  - rewrite Hs. unfold state_record.
    destruct (is_nil (a_why a2)); [now simplify_map_eq | reflexivity].
Qed.



(** X26: in the refinement round of run mode the improved command is
    handed to the shell as soon as the answer is "y" or "yes"; whether it
    is classified dangerous is not looked at.  When it fails, the
    invocation exits with its return code and stores it with the error
    text "exit <code>". *)
Theorem X26_improved_command_not_classified (args : Args) (w : World)
    (raw raw2 l1 l2 l3 out err out2 err2 : pystr) (rest : list pystr)
    (rc rc2 : Z) :
  a_mode args = Run -> a_task args <> [] ->
  ollama (a_model args) (SYSTEM_TEMPLATE (join [SPACE] (a_task args))) = inl raw ->
  normalize (strip raw) <> [] ->
  w_stdin w = l1 :: l2 :: l3 :: rest ->
  (if is_dangerous ua (normalize (strip raw))
   then str_eqb (strip l1) (py "YES")
   else is_yes (strip (lower uni_lower l1))) = true ->
  shell_run (a_shell args) (normalize (strip raw)) = (out, err, rc) ->
  rc <> 0%Z ->
  is_yes (strip (lower uni_lower l2)) = true ->
  ollama (a_model args)
         (REFINE_TEMPLATE (join [SPACE] (a_task args)) (normalize (strip raw))
                          (why_text err)) = inl raw2 ->
  normalize (strip raw2) <> [] ->
  is_yes (strip (lower uni_lower l3)) = true ->
  shell_run (a_shell args) (normalize (strip raw2)) = (out2, err2, rc2) ->
  w_ran (snd (mainP args w)) =
  w_ran w ++ [(a_shell args, normalize (strip raw));
              (a_shell args, normalize (strip raw2))]
  /\ (rc2 <> 0%Z ->
      fst (mainP args w) = Exit rc2
      /\ w_state (snd (mainP args w)) =
         Stored (state_record (JStr (join [SPACE] (a_task args)))
                              (normalize (strip raw2))
                              (Some (py "exit " ++ py_int rc2)) (Some rc2)
                              (w_now w))).
Proof.
  intros Hm Ht Ho Hc Hin Hgate Hsh Hrc Hy2 Ho2 Hc2 Hy3 Hsh2.
  rewrite (run_until_gate ua uni_lower dedent ollama shell_run args w raw
             Hm Ht Ho Hc).
  cbn zeta. apply Z.eqb_neq in Hrc. apply is_nil_false in Hc2.
  destruct (is_dangerous ua (normalize (strip raw)));
    unfold run_execute, refine, call_ollama, print, print_noend, eprint,
      ewrite, save_history, save_state, input, sys_exit, modify, ret, bind;
    world_simpl; rewrite Hin, Hgate; cbn [negb]; world_simpl;
    rewrite Hsh, Hrc; world_simpl; rewrite Hy2; world_simpl;
    cbn [jtext]; rewrite Ho2; world_simpl;
    rewrite empty_or_multiline, Hc2; world_simpl;
    rewrite Hy3, Hsh2; world_simpl;
    (split;
     [ destruct (rc2 =? 0)%Z; world_simpl;
       [ destruct (a_no_history args); world_simpl;
         [|destruct (w_hist_ok w); world_simpl]
       | ];
       rewrite <- app_assoc; reflexivity
     | intros Hrc2; apply Z.eqb_neq in Hrc2; rewrite Hrc2; world_simpl;
       split; reflexivity ]).
Qed.

(** X27: in the refinement round of run mode, when the offer to run the
    improved command is declined, the improved command is not handed to
    the shell, it replaces the failed one in the stored state with an
    empty error, and the invocation exits with status 0. *)
Theorem X27_improved_command_declined (args : Args) (w : World)
    (raw raw2 l1 l2 l3 out err : pystr) (rest : list pystr) (rc : Z) :
  a_mode args = Run -> a_task args <> [] ->
  ollama (a_model args) (SYSTEM_TEMPLATE (join [SPACE] (a_task args))) = inl raw ->
  normalize (strip raw) <> [] ->
  w_stdin w = l1 :: l2 :: l3 :: rest ->
  (if is_dangerous ua (normalize (strip raw))
   then str_eqb (strip l1) (py "YES")
   else is_yes (strip (lower uni_lower l1))) = true ->
  shell_run (a_shell args) (normalize (strip raw)) = (out, err, rc) ->
  rc <> 0%Z ->
  is_yes (strip (lower uni_lower l2)) = true ->
  ollama (a_model args)
         (REFINE_TEMPLATE (join [SPACE] (a_task args)) (normalize (strip raw))
                          (why_text err)) = inl raw2 ->
  normalize (strip raw2) <> [] ->
  is_yes (strip (lower uni_lower l3)) = false ->
  fst (mainP args w) = Exit 0
  /\ w_ran (snd (mainP args w)) =
     w_ran w ++ [(a_shell args, normalize (strip raw))]
  /\ w_hist (snd (mainP args w)) = w_hist w
  /\ w_state (snd (mainP args w)) =
     Stored (state_record (JStr (join [SPACE] (a_task args)))
                          (normalize (strip raw2)) None None (w_now w)).
Proof.
  intros Hm Ht Ho Hc Hin Hgate Hsh Hrc Hy2 Ho2 Hc2 Hn3.
  rewrite (run_until_gate ua uni_lower dedent ollama shell_run args w raw
             Hm Ht Ho Hc).
  cbn zeta. apply Z.eqb_neq in Hrc. apply is_nil_false in Hc2.
  destruct (is_dangerous ua (normalize (strip raw)));
    unfold run_execute, refine, call_ollama, print, print_noend, eprint,
      ewrite, save_history, save_state, input, sys_exit, modify, ret, bind;
    world_simpl; rewrite Hin, Hgate; cbn [negb]; world_simpl;
    rewrite Hsh, Hrc; world_simpl; rewrite Hy2; world_simpl;
    cbn [jtext]; rewrite Ho2; world_simpl;
    rewrite empty_or_multiline, Hc2; world_simpl;
    rewrite Hn3; world_simpl; auto.
Qed.

(** X28: a command returned by [suggest] or by [refine] is never empty,
    has no newline, neither begins nor ends with white space, and has no
    two adjacent white-space characters. *)
Theorem X28_returned_command_shape (model : pystr) (w w' : World)
    (cmd : pystr) :
  (forall task, suggest ua ollama model task w = (Ret cmd, w') ->
                cmd <> [] /\ contains NL cmd = false
                /\ strip cmd = cmd /\ single_spaced cmd)
  /\ (forall task prev problem,
         refine ua ollama model task prev problem w = (Ret cmd, w') ->
         cmd <> [] /\ contains NL cmd = false
         /\ strip cmd = cmd /\ single_spaced cmd).
Proof.
  assert (Hshape : forall raw,
             is_nil (normalize (strip raw)) = false ->
             normalize (strip raw) <> []
             /\ contains NL (normalize (strip raw)) = false
             /\ strip (normalize (strip raw)) = normalize (strip raw)
             /\ single_spaced (normalize (strip raw))).
  { intros raw H. apply is_nil_false in H.
    auto using normalize_contains_newline, normalize_stripped,
      normalize_single_spaced. }
  split.
  - intros task H. rewrite suggest_eval in H. cbn zeta in H.
    destruct (ollama model _) as [raw|e]; [|discriminate].
    destruct (is_nil (normalize (strip raw))) eqn:E; [discriminate|].
    injection H as <- _. now apply Hshape.
  - intros task prev [p|z] H; [|discriminate].
    rewrite refine_eval in H. cbn zeta in H.
    destruct (ollama model _) as [raw|e]; [|discriminate].
    destruct (is_nil (normalize (strip raw))) eqn:E; [discriminate|].
    injection H as <- _. now apply Hshape.
Qed.

Lemma app_cons_neq {A} (l l' : list A) (x : A) : l ++ x :: l' <> l.
Proof.
  intros H. apply (f_equal (@length A)) in H.
  rewrite length_app in H. simpl in H. lia.
Qed.

(** X29: an invocation that exits with status 3 without having handed
    anything to the shell is a run invocation whose command was classified
    dangerous and whose confirmation line, trimmed, was not "YES"; the
    rejected command is then the stored one. *)
Theorem X29_status_3_without_run (args : Args) (w : World) :
  fst (mainP args w) = Exit 3 ->
  w_ran (snd (mainP args w)) = w_ran w ->
  a_mode args = Run
  /\ exists raw line rest,
       ollama (a_model args) (SYSTEM_TEMPLATE (join [SPACE] (a_task args)))
       = inl raw
       /\ is_dangerous ua (normalize (strip raw)) = true
       /\ w_stdin w = line :: rest
       /\ strip line <> py "YES"
       /\ w_state (snd (mainP args w)) =
          Stored (state_record (JStr (join [SPACE] (a_task args)))
                               (normalize (strip raw)) None None (w_now w)).
Proof.
  destruct w as [st hist ok sin sout serr prompts ran now].
  unfold_program. world_simpl.
  destruct (a_mode args) eqn:E.
  1, 3, 4: all_cases; world_simpl; intros H; discriminate.
  all_cases; world_simpl; intros H1 H2;
    try discriminate;
    try (exfalso; rewrite <- ?app_assoc in H2; cbn [app] in H2;
         now apply app_cons_neq in H2);
    (split; [reflexivity|]);
    do 3 eexists; repeat (split; [reflexivity|]);
    (split; [assumption|]); (split; [reflexivity|]);
    (split; [|reflexivity]);
    match goal with
    | Hn : negb (str_eqb _ _) = true |- _ =>
        apply negb_true_iff, str_eqb_neq in Hn; exact Hn
    end.
Qed.

End ControllerFlow.

(** ** Scenarios for the further properties *)

Lemma X11_witness :
  w_ran (snd (main t0 same same (backend_says (py "ls -la"))
                   (shell_gives [] [] 0%Z)
                   (args0 Suggest [py "list"; py "files"] false)
                   (world0 Absent true [py "y"])))
  = [].
Proof.
  apply (proj1 (X11_only_run_mode_executes t0 same same
                  (backend_says (py "ls -la")) (shell_gives [] [] 0%Z)
                  (args0 Suggest [py "list"; py "files"] false)
                  (world0 Absent true [py "y"]) ltac:(discriminate))).
Defined.

Lemma X12_witness :
  w_state (snd (main t0 same same (backend_says (py "- lists files"))
                     (shell_gives [] [] 0%Z) (args_explain (py "ls -la"))
                     (world0 stored_ls true [])))
  = stored_ls.
Proof.
  apply (proj1 (X12_explain_writes_nothing t0 same same
                  (backend_says (py "- lists files")) (shell_gives [] [] 0%Z)
                  (args_explain (py "ls -la")) (world0 stored_ls true [])
                  eq_refl)).
Defined.

Lemma X13_witness :
  w_prompts (snd (main t0 same same (backend_says (py "- lists files"))
                       (shell_gives [] [] 0%Z) (args_explain (py " ls -la "))
                       (world0 stored_ls true [])))
  = [(py "mistral", EXPLAIN_TEMPLATE (py "ls -la"))].
Proof.
  apply (proj1 (X13_explain_command_choice t0 same same
                  (backend_says (py "- lists files")) (shell_gives [] [] 0%Z)
                  (args_explain (py " ls -la ")) (world0 stored_ls true [])
                  eq_refl)).
  vm_compute. discriminate.
Defined.

Lemma X14_witness :
  a_mode (args0 Run [py "list"; py "files"] false) = Run
  /\ exists raw line rest,
       backend_says (py "ls -la") (py "mistral")
                    (SYSTEM_TEMPLATE (py "list files")) = inl raw
       /\ [py "Yes"] = line :: rest
       /\ (if is_dangerous t0 (normalize_one_line t0 (strip raw))
           then strip line = py "YES"
           else is_yes (strip (lower same line)) = true).
Proof.
  apply (X14_no_execution_without_consent t0 same same
           (backend_says (py "ls -la")) (shell_gives [] [] 0%Z)
           (args0 Run [py "list"; py "files"] false)
           (world0 Absent true [py "Yes"])).
  vm_compute. discriminate.
Defined.

Lemma X15_witness :
  fst (main t0 same same (backend_says (py "ls -la")) (shell_gives [] [] 0%Z)
            (args0 Run [py "list"; py "files"] false)
            (world0 Absent true [py "n"]))
  = Exit 0.
Proof.
  refine (proj1 (X15_normal_decline t0 same same
                   (backend_says (py "ls -la")) (shell_gives [] [] 0%Z)
                   (args0 Run [py "list"; py "files"] false)
                   (world0 Absent true [py "n"]) (py "ls -la") (py "n") []
                   eq_refl _ eq_refl _ eq_refl eq_refl eq_refl)).
  - discriminate.
  - vm_compute. discriminate.
Defined.

Lemma X16_witness :
  fst (main t0 same same (backend_says (py "ls -la"))
            (shell_gives (py "a.txt") [] 0%Z)
            (args0 Run [py "list"; py "files"] false)
            (world0 Absent true [py " YES "]))
  = Exit 0.
Proof.
  refine (proj1 (proj1 (proj2 (proj2
            (X16_successful_run t0 same same
               (backend_says (py "ls -la"))
               (shell_gives (py "a.txt") [] 0%Z)
               (args0 Run [py "list"; py "files"] false)
               (world0 Absent true [py " YES "]) (py "ls -la")
               (py " YES ") (py "a.txt") [] []
               eq_refl _ eq_refl _ eq_refl eq_refl eq_refl)))
            (or_intror eq_refl))).
  - discriminate.
  - vm_compute. discriminate.
Defined.

Lemma X17_witness :
  w_hist (snd (main t0 same same (backend_says (py "ls -la"))
                    (shell_gives [] [] 0%Z)
                    (args_quiet Run [py "list"; py "files"])
                    (world0 Absent true [py "y"])))
  = [].
Proof.
  apply (X17_no_history_flag t0 same same (backend_says (py "ls -la"))
           (shell_gives [] [] 0%Z) (args_quiet Run [py "list"; py "files"])
           (world0 Absent true [py "y"]) eq_refl).
Defined.

Lemma X20_witness :
  fst (main t0 same same (backend_fails (py "exit status 1"))
            (shell_gives [] [] 0%Z)
            (args0 Run [py "list"; py "files"] false)
            (world0 stored_ls true [py "y"]))
  = Exit 1.
Proof.
  apply (proj2 (proj2 (proj2
           (X20_backend_down t0 same same
              (backend_fails (py "exit status 1")) (shell_gives [] [] 0%Z)
              (args0 Run [py "list"; py "files"] false)
              (world0 stored_ls true [py "y"])
              (fun _ _ => ex_intro _ (py "exit status 1") eq_refl))))).
Defined.

Lemma X22_witness :
  w_prompts (snd (main t0 same same (backend_says (py "ls -la"))
                       (shell_gives [] [] 0%Z) (args0 Refine [] true)
                       (world0 stored_ls true [])))
  = [(py "mistral",
      REFINE_TEMPLATE (py "list files") (py "ls") (py "no details"))].
Proof.
  apply (X22_use_last_context t0 same same (backend_says (py "ls -la"))
           (shell_gives [] [] 0%Z) (args0 Refine [] true)
           (world0 stored_ls true []) (JStr (py "list files"))
           (JStr (py "ls")) []);
    reflexivity.
Defined.

Lemma X23_witness :
  fst (main t0 same same (backend_says (py "ls -la")) (shell_gives [] [] 0%Z)
            (args0 Suggest [py "list"; py "files"] false)
            (world0 Absent true []))
  = Ret tt.
Proof.
  refine (proj1 (X23_successful_suggest t0 same same
                   (backend_says (py "ls -la")) (shell_gives [] [] 0%Z)
                   (args0 Suggest [py "list"; py "files"] false)
                   (world0 Absent true []) (py "ls -la")
                   eq_refl _ eq_refl _ _)).
  - discriminate.
  - vm_compute. discriminate.
  - right. reflexivity.
Defined.

Lemma X24_witness :
  w_prompts
    (snd (main t0 same same (backend_says (py "ls -la"))
               (shell_gives [] [] 0%Z) (args0 Refine [] true)
               (snd (main t0 same same (backend_says (py "ls -la"))
                          (shell_gives [] [] 0%Z)
                          (args0 Suggest [py "list"; py "files"] false)
                          (world0 Absent true [])))))
  = [(py "mistral", SYSTEM_TEMPLATE (py "list files"));
     (py "mistral",
      REFINE_TEMPLATE (py "list files") (py "ls -la") (py "no details"))].
Proof.
  refine (X24_suggest_then_use_last t0 same same
            (backend_says (py "ls -la")) (shell_gives [] [] 0%Z)
            (args0 Suggest [py "list"; py "files"] false)
            (args0 Refine [] true) (world0 Absent true []) _ (py "ls -la")
            eq_refl _ _ eq_refl _ _ eq_refl eq_refl eq_refl).
  - discriminate.
  - vm_compute. discriminate.
  - vm_compute. discriminate.
  - right. reflexivity.
Defined.


Lemma X26_witness :
  w_ran (snd (main t0 same same (backend_says (py "rm -rf /tmp/x"))
                   (shell_gives [] (py "busy") 1%Z)
                   (args0 Run [py "clean"; py "up"] false)
                   (world0 Absent true [py "YES"; py "y"; py "y"])))
  = [(py "/bin/bash", py "rm -rf /tmp/x"); (py "/bin/bash", py "rm -rf /tmp/x")].
Proof.
  refine (proj1 (X26_improved_command_not_classified t0 same same
                   (backend_says (py "rm -rf /tmp/x"))
                   (shell_gives [] (py "busy") 1%Z)
                   (args0 Run [py "clean"; py "up"] false)
                   (world0 Absent true [py "YES"; py "y"; py "y"])
                   (py "rm -rf /tmp/x") (py "rm -rf /tmp/x")
                   (py "YES") (py "y") (py "y") [] (py "busy") [] (py "busy")
                   [] 1%Z 1%Z
                   eq_refl _ eq_refl _ eq_refl _ eq_refl _ _ eq_refl _ _
                   eq_refl)).
  - discriminate.
  - vm_compute. discriminate.
  - vm_compute. reflexivity.
  - discriminate.
  - vm_compute. reflexivity.
  - vm_compute. discriminate.
  - vm_compute. reflexivity.
Defined.

Lemma X27_witness :
  fst (main t0 same same (backend_says (py "cat notes.txt"))
            (shell_gives [] (py "file not found") 1%Z)
            (args0 Run [py "show"; py "notes"] false)
            (world0 Absent true [py "y"; py "yes"; py ""]))
  = Exit 0.
Proof.
  refine (proj1 (X27_improved_command_declined t0 same same
                   (backend_says (py "cat notes.txt"))
                   (shell_gives [] (py "file not found") 1%Z)
                   (args0 Run [py "show"; py "notes"] false)
                   (world0 Absent true [py "y"; py "yes"; py ""])
                   (py "cat notes.txt") (py "cat notes.txt")
                   (py "y") (py "yes") (py "") [] (py "file not found") []
                   1%Z
                   eq_refl _ eq_refl _ eq_refl _ eq_refl _ _ eq_refl _ _)).
  - discriminate.
  - vm_compute. discriminate.
  - vm_compute. reflexivity.
  - discriminate.
  - vm_compute. reflexivity.
  - vm_compute. discriminate.
  - vm_compute. reflexivity.
Defined.

Lemma X28_witness :
  py "ls -la" <> [] /\ contains NL (py "ls -la") = false
  /\ strip (py "ls -la") = py "ls -la" /\ single_spaced (py "ls -la").
Proof.
  apply (proj1 (X28_returned_command_shape t0
                  (backend_says ([NL] ++ py " ls   -la ")) (py "mistral")
                  (world0 Absent true [])
                  (add_prompt (py "mistral", SYSTEM_TEMPLATE (py "list files"))
                              (world0 Absent true []))
                  (py "ls -la"))
               (py "list files")).
  vm_compute. reflexivity.
Defined.

Lemma X29_witness :
  a_mode (args0 Run [py "delete"; py "everything"] false) = Run
  /\ exists raw line rest,
       backend_says (py "rm -rf /tmp/x") (py "mistral")
                    (SYSTEM_TEMPLATE (py "delete everything")) = inl raw
       /\ is_dangerous t0 (normalize_one_line t0 (strip raw)) = true
       /\ [py "yes"] = line :: rest
       /\ strip line <> py "YES"
       /\ w_state (snd (main t0 same same (backend_says (py "rm -rf /tmp/x"))
                             (shell_gives [] [] 0%Z)
                             (args0 Run [py "delete"; py "everything"] false)
                             (world0 Absent true [py "yes"])))
          = Stored (state_record (JStr (py "delete everything"))
                                 (normalize_one_line t0 (strip raw)) None None
                                 (py "2024-05-01T12:00:00")).
Proof.
  apply (X29_status_3_without_run t0 same same
           (backend_says (py "rm -rf /tmp/x")) (shell_gives [] [] 0%Z)
           (args0 Run [py "delete"; py "everything"] false)
           (world0 Absent true [py "yes"]));
    vm_compute; reflexivity.
Defined.
